(** * Online bookstore (NestJS): authentication, users and catalogue services

    A shallow embedding of [AuthService], [AuthController.getProfile],
    [UsersService] and [BooksService].

    The relational store is the pair of tables [users] and [books] of the
    migration [0000_nebulous_killer_shrike.sql]: rows are records, a table
    is the list of its rows, and a table's [serial] key is drawn from a
    sequence.  The primary keys and the UNIQUE constraints of the
    migration are checked by the write primitives.  The range of the
    [integer] type is checked where a statement on [books] binds an id
    or a stock and where a [users] row is deleted by id: the server
    refuses a parameter outside it and nothing is written.  The widths
    of the [varchar(n)] columns and the text in which the server returns
    a [numeric(10,2)] value are not modelled; the theorems on written
    books are stated for values that the columns hold and leave the text
    of a written price aside.

    An [async] method is a computation over the database that either
    returns a value or throws; the database survives a throw. *)

From Stdlib Require Import ZArith List String Ascii Bool Lia DecimalString.
Import ListNotations.

#[local] Open Scope string_scope.
#[local] Open Scope list_scope.
#[local] Open Scope Z_scope.

(** ** Exceptions and the computation monad *)

Inductive Exception : Type :=
| UnauthorizedException (message : string)
| NotFoundException (message : string)
| TypeError (message : string)
| QueryError (message : string).

Inductive Outcome (A : Type) : Type :=
| Ok (a : A)
| Throw (e : Exception).

Arguments Ok {A} a.
Arguments Throw {A} e.

(** ** The schema *)

Module User.
  (** [users] table; a NULL column is [None]. *)
Record t : Type := mk {
    id : Z;
    email : string;
    password : option string;
    firstName : option string;
    lastName : option string;
    googleId : option string;
    avatar : option string;
    isActive : option bool;
    createdAt : option Z;
    updatedAt : option Z
  }.
End User.

Module Book.
  (** [books] table.  [price] holds the text of the [numeric] column, the
      type drizzle gives it. *)
Record t : Type := mk {
    id : Z;
    title : string;
    author : string;
    isbn : string;
    description : option string;
    price : string;
    stock : option Z;
    category : option string;
    publishedDate : option Z;
    coverImage : option string;
    createdAt : option Z;
    updatedAt : option Z
  }.
End Book.

(** [Omit<User, 'password'>]. *)
Module PublicUser.
Record t : Type := mk {
    id : Z;
    email : string;
    firstName : option string;
    lastName : option string;
    googleId : option string;
    avatar : option string;
    isActive : option bool;
    createdAt : option Z;
    updatedAt : option Z
  }.
End PublicUser.

(** [const { password: _, ...userWithoutPassword } = user] *)
Definition withoutPassword (user : User.t) : PublicUser.t :=
  {| PublicUser.id := User.id user;
     PublicUser.email := User.email user;
     PublicUser.firstName := User.firstName user;
     PublicUser.lastName := User.lastName user;
     PublicUser.googleId := User.googleId user;
     PublicUser.avatar := User.avatar user;
     PublicUser.isActive := User.isActive user;
     PublicUser.createdAt := User.createdAt user;
     PublicUser.updatedAt := User.updatedAt user |}.

(** The fields of [NewUser] that the services supply; an omitted field is
    [None] and takes the column default. *)
Record NewUser : Type := {
  new_email : string;
  new_password : option string;
  new_firstName : option string;
  new_lastName : option string;
  new_googleId : option string;
  new_avatar : option string
}.

(** The object given to [update(users).set(...)]: a key that is missing or
    [undefined] is [None], and drizzle leaves that column alone. *)
Record UserSet : Type := {
  set_email : option string;
  set_password : option string;
  set_firstName : option string;
  set_lastName : option string;
  set_googleId : option string;
  set_avatar : option string;
  set_isActive : option bool;
  set_updatedAt : option Z
}.

Record Db : Type := {
  users : list User.t;
  users_id_seq : Z;
  books : list Book.t
}.

Definition M (A : Type) : Type := Db -> Outcome A * Db.

Definition ret {A} (a : A) : M A := fun db => (Ok a, db).

Definition throw {A} (e : Exception) : M A := fun db => (Throw e, db).

Definition bind {A B} (c : M A) (k : A -> M B) : M B :=
  fun db =>
    match c db with
    | (Ok a, db') => k a db'
    | (Throw e, db') => (Throw e, db')
    end.

Notation "x <- c ;; k" := (bind c (fun x => k))
  (at level 100, c at next level, right associativity).
Notation "c ;;; k" := (bind c (fun _ => k))
  (at level 100, right associativity).

(** ** JavaScript values *)

(** Truthiness of a string: only the empty string is falsy. *)
Definition truthy_string (s : string) : bool :=
  negb (String.eqb s "").

(** Truthiness of a [string | null] column value. *)
Definition truthy_column (v : option string) : bool :=
  match v with
  | Some s => truthy_string s
  | None => false
  end.

(** [`${n}`] for an integer. *)
Definition string_of_Z (n : Z) : string :=
  NilZero.string_of_int (Z.to_int n).

(** ** Query primitives on [users] *)

Definition option_eqb (a : option string) (b : string) : bool :=
  match a with
  | Some x => String.eqb x b
  | None => false
  end.

Fixpoint distinct (l : list string) : bool :=
  match l with
  | [] => true
  | x :: t => negb (existsb (String.eqb x) t) && distinct t
  end.

Fixpoint distinctZ (l : list Z) : bool :=
  match l with
  | [] => true
  | x :: t => negb (existsb (Z.eqb x) t) && distinctZ t
  end.

Fixpoint somes {A} (l : list (option A)) : list A :=
  match l with
  | [] => []
  | Some x :: t => x :: somes t
  | None :: t => somes t
  end.

(** [users_pkey], [users_email_unique], [users_google_id_unique]. *)
Definition users_constraints (rows : list User.t) : bool :=
  distinctZ (map User.id rows)
  && distinct (map User.email rows)
  && distinct (somes (map User.googleId rows)).

(** [db.select().from(users).where(p)] *)
Definition select_users (p : User.t -> bool) : M (list User.t) :=
  fun db => (Ok (filter p (users db)), db).

Definition with_users (db : Db) (rows : list User.t) (seq : Z) : Db :=
  {| users := rows; users_id_seq := seq; books := books db |}.

Definition new_row (now : Z) (key : Z) (v : NewUser) : User.t :=
  {| User.id := key;
     User.email := new_email v;
     User.password := new_password v;
     User.firstName := new_firstName v;
     User.lastName := new_lastName v;
     User.googleId := new_googleId v;
     User.avatar := new_avatar v;
     User.isActive := Some true;
     User.createdAt := Some now;
     User.updatedAt := Some now |}.

(** [db.insert(users).values(v).returning()]: the key comes from the
    sequence, which advances even when the row is refused. *)
Definition insert_user (now : Z) (v : NewUser) : M (list User.t) :=
  fun db =>
    let row := new_row now (users_id_seq db) v in
    let rows := users db ++ [row] in
    if users_constraints rows
    then (Ok [row], with_users db rows (users_id_seq db + 1))
    else (Throw (QueryError "duplicate key value violates unique constraint"),
          with_users db (users db) (users_id_seq db + 1)).

Definition or_else {A} (v : option A) (old : option A) : option A :=
  match v with
  | Some x => Some x
  | None => old
  end.

Definition apply_set (s : UserSet) (u : User.t) : User.t :=
  {| User.id := User.id u;
     User.email := match set_email s with Some e => e | None => User.email u end;
     User.password := or_else (set_password s) (User.password u);
     User.firstName := or_else (set_firstName s) (User.firstName u);
     User.lastName := or_else (set_lastName s) (User.lastName u);
     User.googleId := or_else (set_googleId s) (User.googleId u);
     User.avatar := or_else (set_avatar s) (User.avatar u);
     User.isActive := or_else (set_isActive s) (User.isActive u);
     User.createdAt := User.createdAt u;
     User.updatedAt := or_else (set_updatedAt s) (User.updatedAt u) |}.

Definition update_rows (s : UserSet) (p : User.t -> bool) (rows : list User.t)
  : list User.t :=
  map (fun u => if p u then apply_set s u else u) rows.

(** [db.update(users).set(s).where(p).returning()] *)
Definition update_users (s : UserSet) (p : User.t -> bool) : M (list User.t) :=
  fun db =>
    let rows := update_rows s p (users db) in
    if users_constraints rows
    then (Ok (map (apply_set s) (filter p (users db))),
          with_users db rows (users_id_seq db))
    else (Throw (QueryError "duplicate key value violates unique constraint"), db).

(** The values of an [integer] column.  The server refuses an integer
    parameter that is not one of them. *)
Definition int4 (n : Z) : bool :=
  (-2147483648 <=? n) && (n <=? 2147483647).

(** The error of such a refusal; the server's message names the value
    as well. *)
Definition out_of_range : Exception :=
  QueryError "value out of range for type integer".

(** [db.delete(users).where(p).returning()], [key] being the integer that
    the condition binds. *)
Definition delete_users (key : Z) (p : User.t -> bool) : M (list User.t) :=
  fun db =>
    if int4 key
    then (Ok (filter p (users db)),
          with_users db (filter (fun u => negb (p u)) (users db))
            (users_id_seq db))
    else (Throw out_of_range, db).

(** [eq(users.id, id)], [eq(users.email, email)], [eq(users.googleId, g)] *)
Definition eq_id (id : Z) (u : User.t) : bool := Z.eqb (User.id u) id.
Definition eq_email (email : string) (u : User.t) : bool :=
  String.eqb (User.email u) email.
Definition eq_googleId (g : string) (u : User.t) : bool :=
  option_eqb (User.googleId u) g.

(** ** External collaborators: bcryptjs and the JWT service *)

(** [bcrypt.hash(plaintext, rounds)] draws a random salt, here the third
    argument; [bcrypt.compare(plaintext, hash)].  The two laws are those
    of the primitive: a hash verifies its own plaintext, and a string that
    is not a hash (bcryptjs answers false when the length is not 60)
    verifies nothing. *)
Class PasswordHasher : Type := {
  hash : string -> nat -> string -> string;
  compare : string -> string -> bool;
  compare_hash : forall plaintext rounds salt,
    compare plaintext (hash plaintext rounds salt) = true;
  compare_empty : forall plaintext, compare plaintext "" = false
}.

Record JwtPayload : Type := {
  sub : Z;
  jwt_email : string;
  jwt_firstName : option string;
  jwt_lastName : option string
}.

(** [jwtService.sign(payload)] at the time of issue, and the decoding of a
    token back to the claims it carries. *)
Class JwtService : Type := {
  token : Type;
  sign : JwtPayload -> Z -> token;
  decode : token -> option JwtPayload;
  decode_sign : forall payload now, decode (sign payload now) = Some payload
}.

(** What a call reads from outside the database: the clock and the salt
    the hasher draws. *)
Record Env : Type := {
  now : Z;
  salt : string
}.

(** ** auth.service.ts *)

Record LoginResponse `{JwtService} : Type := {
  access_token : token;
  user : PublicUser.t
}.

(** The Google profile handed over by passport: [{ id, emails, name,
    photos }], the entries of [emails] and [photos] being [{ value }]. *)
Record Valued : Type := { value : string }.

Record ProfileName : Type := {
  givenName : option string;
  familyName : option string
}.

Record Profile : Type := {
  profile_id : string;
  emails : list Valued;
  name : ProfileName;
  photos : list Valued
}.

Record RegisterData : Type := {
  reg_email : string;
  reg_password : string;
  reg_firstName : option string;
  reg_lastName : option string
}.

(** [photos[0]?.value] *)
Definition first_photo (photos : list Valued) : option string :=
  match photos with
  | p :: _ => Some (value p)
  | [] => None
  end.

Module AuthService.
Section WithCollaborators.
Context {bcrypt : PasswordHasher} {jwtService : JwtService}.

Definition findUserByEmail (email : string) : M (option User.t) :=
    rows <- select_users (eq_email email) ;;
    ret (hd_error rows).

Definition findUserByGoogleId (googleId : string) : M (option User.t) :=
    rows <- select_users (eq_googleId googleId) ;;
    ret (hd_error rows).

Definition findUserById (id : Z) : M (option User.t) :=
    rows <- select_users (eq_id id) ;;
    ret (hd_error rows).

Definition validateUser (email password : string) : M (option User.t) :=
    user <- findUserByEmail email ;;
    match user with
    | Some u =>
        match User.password u with
        | Some stored =>
            if truthy_string stored && compare password stored
            then ret (Some u)
            else ret None
        | None => ret None
        end
    | None => ret None
    end.

Definition payload_of (user : User.t) : JwtPayload :=
    {| sub := User.id user;
       jwt_email := User.email user;
       jwt_firstName := User.firstName user;
       jwt_lastName := User.lastName user |}.

Definition login (env : Env) (user : User.t) : M LoginResponse :=
    let payload := payload_of user in
    let userWithoutPassword := withoutPassword user in
    ret {| access_token := sign payload (now env);
           user := userWithoutPassword |}.

  (** [login] applied to the first row an insert returns. *)
Definition login_first (env : Env) (rows : list User.t) : M LoginResponse :=
    match rows with
    | createdUser :: _ => login env createdUser
    | [] => throw (TypeError "Cannot destructure property 'password' of undefined")
    end.

Definition register (env : Env) (userData : RegisterData) : M LoginResponse :=
    existingUser <- findUserByEmail (reg_email userData) ;;
    match existingUser with
    | Some _ => throw (UnauthorizedException "User already exists")
    | None =>
        let hashedPassword := hash (reg_password userData) 10 (salt env) in
        let newUser :=
          {| new_email := reg_email userData;
             new_password := Some hashedPassword;
             new_firstName := reg_firstName userData;
             new_lastName := reg_lastName userData;
             new_googleId := None;
             new_avatar := None |} in
        rows <- insert_user (now env) newUser ;;
        login_first env rows
    end.

  (** The in-memory record after [user.googleId = id; user.avatar =
      photos[0]?.value]. *)
Definition linked (id : string) (photo : option string) (u : User.t) : User.t :=
    {| User.id := User.id u;
       User.email := User.email u;
       User.password := User.password u;
       User.firstName := User.firstName u;
       User.lastName := User.lastName u;
       User.googleId := Some id;
       User.avatar := photo;
       User.isActive := User.isActive u;
       User.createdAt := User.createdAt u;
       User.updatedAt := User.updatedAt u |}.

(** [{ googleId: id, avatar: photos[0]?.value }] *)
Definition link_set (id : string) (photo : option string) : UserSet :=
  {| set_email := None; set_password := None;
     set_firstName := None; set_lastName := None;
     set_googleId := Some id;
     set_avatar := photo;
     set_isActive := None; set_updatedAt := None |}.

Definition googleLogin (env : Env) (profile : Profile) : M LoginResponse :=
    let id := profile_id profile in
    match emails profile with
    | [] => throw (TypeError "Cannot read properties of undefined (reading 'value')")
    | first :: _ =>
        let email := value first in
        byGoogleId <- findUserByGoogleId id ;;
        match byGoogleId with
        | Some u => login env u
        | None =>
            byEmail <- findUserByEmail email ;;
            match byEmail with
            | Some u =>
                (update_users (link_set id (first_photo (photos profile)))
                              (eq_id (User.id u))) ;;;
                login env (linked id (first_photo (photos profile)) u)
            | None =>
                let newUser :=
                  {| new_email := email;
                     new_password := None;
                     new_firstName := givenName (name profile);
                     new_lastName := familyName (name profile);
                     new_googleId := Some id;
                     new_avatar := first_photo (photos profile) |} in
                rows <- insert_user (now env) newUser ;;
                login_first env rows
            end
        end
    end.

(** [{ password: hashedNewPassword, updatedAt: new Date() }] *)
Definition password_set (hashedNewPassword : string) (date : Z) : UserSet :=
  {| set_email := None;
     set_password := Some hashedNewPassword;
     set_firstName := None; set_lastName := None;
     set_googleId := None; set_avatar := None;
     set_isActive := None;
     set_updatedAt := Some date |}.

Definition changePassword (env : Env) (userId : Z)
      (currentPassword newPassword : string) : M unit :=
    found <- findUserById userId ;;
    match found with
    | None => throw (UnauthorizedException "User not found or no password set")
    | Some u =>
        if negb (truthy_column (User.password u))
        then throw (UnauthorizedException "User not found or no password set")
        else
          let stored := match User.password u with Some h => h | None => "" end in
          let isCurrentPasswordValid := compare currentPassword stored in
          if negb isCurrentPasswordValid
          then throw (UnauthorizedException "Current password is incorrect")
          else
            let hashedNewPassword := hash newPassword 10 (salt env) in
            (update_users (password_set hashedNewPassword (now env))
                          (eq_id userId)) ;;;
            ret tt
    end.

End WithCollaborators.
End AuthService.

(** ** auth.controller.ts *)

Module AuthController.
  (** [getProfile(@CurrentUser() user)] *)
Definition getProfile (user : User.t) : M PublicUser.t :=
    let userWithoutPassword := withoutPassword user in
    ret userWithoutPassword.
End AuthController.

(** ** auth/strategies/jwt.strategy.ts *)

Module JwtStrategy.
(** [validate(payload)], called with the payload of a verified token;
    [new UnauthorizedException()] carries the default message. *)
Definition validate (payload : JwtPayload) : M User.t :=
    found <- AuthService.findUserById (sub payload) ;;
    match found with
    | None => throw (UnauthorizedException "Unauthorized")
    | Some u => ret u
    end.
End JwtStrategy.

(** ** users.service.ts *)

Record UpdateUserDto : Type := {
  dto_email : option string;
  dto_firstName : option string;
  dto_lastName : option string;
  dto_avatar : option string
}.

Module UsersService.

Definition not_found (id : Z) : Exception :=
    NotFoundException
      (String.append "User with ID " (String.append (string_of_Z id) " not found")).

  (** The tail shared by [findOne], [update], [deactivate] and [activate]:
      the first row of the query, without its password, or NotFound. *)
Definition first_or_not_found (id : Z) (rows : list User.t) : M PublicUser.t :=
    match rows with
    | [] => throw (not_found id)
    | found :: _ => ret (withoutPassword found)
    end.

Definition findAll : M (list PublicUser.t) :=
    allUsers <- select_users (fun _ => true) ;;
    ret (map withoutPassword allUsers).

Definition findOne (id : Z) : M PublicUser.t :=
    rows <- select_users (eq_id id) ;;
    first_or_not_found id rows.

Definition update (env : Env) (id : Z) (updateUserDto : UpdateUserDto)
    : M PublicUser.t :=
    rows <- update_users
              {| set_email := dto_email updateUserDto;
                 set_password := None;
                 set_firstName := dto_firstName updateUserDto;
                 set_lastName := dto_lastName updateUserDto;
                 set_googleId := None;
                 set_avatar := dto_avatar updateUserDto;
                 set_isActive := None;
                 set_updatedAt := Some (now env) |}
              (eq_id id) ;;
    first_or_not_found id rows.

Definition remove (id : Z) : M unit :=
    result <- delete_users id (eq_id id) ;;
    if Nat.eqb (List.length result) 0 then throw (not_found id) else ret tt.

Definition set_active (env : Env) (flag : bool) : UserSet :=
    {| set_email := None; set_password := None; set_firstName := None;
       set_lastName := None; set_googleId := None; set_avatar := None;
       set_isActive := Some flag;
       set_updatedAt := Some (now env) |}.

Definition deactivate (env : Env) (id : Z) : M PublicUser.t :=
    rows <- update_users (set_active env false) (eq_id id) ;;
    first_or_not_found id rows.

Definition activate (env : Env) (id : Z) : M PublicUser.t :=
    rows <- update_users (set_active env true) (eq_id id) ;;
    first_or_not_found id rows.

End UsersService.

(** ** SQL pattern matching: [ILIKE] *)

Inductive LikeToken : Type :=
| AnyString            (* % *)
| AnyChar              (* _ *)
| Literal (c : ascii). (* any other character, or an escaped one *)

(** Reading a pattern: [%] and [_] are wildcards and a backslash makes the
    next character literal; a pattern may not end in a lone backslash. *)
Fixpoint like_tokens (pattern : list ascii) : option (list LikeToken) :=
  match pattern with
  | [] => Some []
  | c :: rest =>
      if Ascii.eqb c "%" then option_map (cons AnyString) (like_tokens rest)
      else if Ascii.eqb c "_" then option_map (cons AnyChar) (like_tokens rest)
      else if Ascii.eqb c "\" then
        match rest with
        | [] => None
        | escaped :: rest' => option_map (cons (Literal escaped)) (like_tokens rest')
        end
      else option_map (cons (Literal c)) (like_tokens rest)
  end.

(** Case folding of the ASCII letters; the server folds the other
    letters as well, which the statements on [ILIKE] leave aside by
    taking ASCII text. *)
Definition lower (c : ascii) : ascii :=
  let n := nat_of_ascii c in
  if (Nat.leb 65 n && Nat.leb n 90)%bool then ascii_of_nat (n + 32) else c.

Definition same_letter (c d : ascii) : bool := Ascii.eqb (lower c) (lower d).

Fixpoint like_match (pattern : list LikeToken) (text : list ascii) : bool :=
  match pattern with
  | [] => match text with [] => true | _ :: _ => false end
  | AnyString :: pattern' =>
      (fix skip (t : list ascii) : bool :=
         like_match pattern' t
         || match t with [] => false | _ :: t' => skip t' end) text
  | AnyChar :: pattern' =>
      match text with
      | _ :: text' => like_match pattern' text'
      | [] => false
      end
  | Literal c :: pattern' =>
      match text with
      | d :: text' => same_letter c d && like_match pattern' text'
      | [] => false
      end
  end.

(** [ilike(column, pattern)]: NULL on a NULL column. *)
Definition ilike (column : option string) (pattern : list LikeToken) : option bool :=
  match column with
  | Some text => Some (like_match pattern (list_ascii_of_string text))
  | None => None
  end.

(** SQL's three-valued OR. *)
Definition sql_or (a b : option bool) : option bool :=
  match a, b with
  | Some true, _ => Some true
  | _, Some true => Some true
  | Some false, Some false => Some false
  | _, _ => None
  end.

(** A WHERE clause keeps the rows on which it is true. *)
Definition holds (v : option bool) : bool :=
  match v with
  | Some true => true
  | _ => false
  end.

(** ** books.service.ts *)

(** [Number.prototype.toString] on a number with at most two decimal
    places (the DTO's [IsNumber({ maxDecimalPlaces: 2 })]), held in
    hundredths: 1999 is 19.99, 1050 is 10.5 and 1000 is 10.  (From
    1e21 on JavaScript writes an exponent, which this does not.) *)
Definition number_toString (hundredths : Z) : string :=
  let a := Z.abs hundredths in
  let whole := a / 100 in
  let frac := a mod 100 in
  String.append (if hundredths <? 0 then "-" else "")
    (String.append (string_of_Z whole)
       (if frac =? 0 then ""
        else String.append "."
               (String.append (string_of_Z (frac / 10))
                  (if frac mod 10 =? 0 then "" else string_of_Z (frac mod 10))))).

(** Truthiness of such a number: only zero is falsy. *)
Definition truthy_number (n : Z) : bool := negb (n =? 0).

(** A [price] on its way to the store: still a number, or its text. *)
Inductive PriceValue : Type :=
| PNumber (n : Z)
| PString (s : string).

(** The text the driver sends for a [price] parameter. *)
Definition driver_text (v : PriceValue) : string :=
  match v with
  | PNumber n => number_toString n
  | PString s => s
  end.

(** [UpdateBookDto] is imported from [./dto/update-book.dto], which is not
    among the sources; it is taken to be [CreateBookDto] with every field
    optional, which is how [update] uses it.  [publishedDate] is the
    instant its ISO date string denotes. *)
Record UpdateBookDto : Type := {
  upd_title : option string;
  upd_author : option string;
  upd_isbn : option string;
  upd_description : option string;
  upd_price : option Z;
  upd_stock : option Z;
  upd_category : option string;
  upd_publishedDate : option Z;
  upd_coverImage : option string
}.

(** The object given to [update(books).set(...)]. *)
Record BookSet : Type := {
  bset_title : option string;
  bset_author : option string;
  bset_isbn : option string;
  bset_description : option string;
  bset_price : option PriceValue;
  bset_stock : option Z;
  bset_category : option string;
  bset_publishedDate : option Z;
  bset_coverImage : option string;
  bset_updatedAt : option Z
}.

(** The row after [SET s].  A price is kept in the text that was sent;
    the server returns it with two decimals. *)
Definition apply_bset (s : BookSet) (b : Book.t) : Book.t :=
  {| Book.id := Book.id b;
     Book.title := match bset_title s with Some x => x | None => Book.title b end;
     Book.author := match bset_author s with Some x => x | None => Book.author b end;
     Book.isbn := match bset_isbn s with Some x => x | None => Book.isbn b end;
     Book.description := or_else (bset_description s) (Book.description b);
     Book.price :=
       match bset_price s with Some v => driver_text v | None => Book.price b end;
     Book.stock := or_else (bset_stock s) (Book.stock b);
     Book.category := or_else (bset_category s) (Book.category b);
     Book.publishedDate := or_else (bset_publishedDate s) (Book.publishedDate b);
     Book.coverImage := or_else (bset_coverImage s) (Book.coverImage b);
     Book.createdAt := Book.createdAt b;
     Book.updatedAt := or_else (bset_updatedAt s) (Book.updatedAt b) |}.

(** [books_pkey], [books_isbn_unique]. *)
Definition books_constraints (rows : list Book.t) : bool :=
  distinctZ (map Book.id rows) && distinct (map Book.isbn rows).

Definition with_books (db : Db) (rows : list Book.t) : Db :=
  {| users := users db; users_id_seq := users_id_seq db; books := rows |}.

(** [eq(books.id, id)]: a condition on the key, with the integer that it
    binds. *)
Record KeyCondition : Type := { bound_id : Z }.

Definition eq_book_id (id : Z) : KeyCondition := {| bound_id := id |}.

(** The rows that a condition on the key selects. *)
Definition on_key (w : KeyCondition) (b : Book.t) : bool :=
  Z.eqb (Book.id b) (bound_id w).

Coercion on_key : KeyCondition >-> Funclass.

(** The stock that a statement sets, if any, is a value of the column. *)
Definition stock_in_range (s : BookSet) : bool :=
  match bset_stock s with
  | Some quantity => int4 quantity
  | None => true
  end.

(** [db.select().from(books).where(p)], for a condition that binds no
    integer. *)
Definition select_books (p : Book.t -> bool) : M (list Book.t) :=
  fun db => (Ok (filter p (books db)), db).

(** [db.select().from(books).where(eq(books.id, id))] *)
Definition select_books_where (w : KeyCondition) : M (list Book.t) :=
  fun db =>
    if int4 (bound_id w)
    then (Ok (filter w (books db)), db)
    else (Throw out_of_range, db).

(** [db.update(books).set(s).where(eq(books.id, id)).returning()] *)
Definition update_books (s : BookSet) (w : KeyCondition) : M (list Book.t) :=
  fun db =>
    let rows := map (fun b => if w b then apply_bset s b else b) (books db) in
    if books_constraints rows
    then
      if int4 (bound_id w) && stock_in_range s
      then (Ok (map (apply_bset s) (filter w (books db))), with_books db rows)
      else (Throw out_of_range, db)
    else (Throw (QueryError "duplicate key value violates unique constraint"), db).

(** [db.delete(books).where(eq(books.id, id)).returning()] *)
Definition delete_books (w : KeyCondition) : M (list Book.t) :=
  fun db =>
    if int4 (bound_id w)
    then (Ok (filter w (books db)),
          with_books db (filter (fun b => negb (w b)) (books db)))
    else (Throw out_of_range, db).

(** [CreateBookDto]; [price] in hundredths and [publishedDate] the instant
    its ISO date string denotes, as in [UpdateBookDto]. *)
Record CreateBookDto : Type := {
  cr_title : string;
  cr_author : string;
  cr_isbn : string;
  cr_description : option string;
  cr_price : Z;
  cr_stock : option Z;
  cr_category : option string;
  cr_publishedDate : option Z;
  cr_coverImage : option string
}.

(** The fields of [NewBook] that [create] supplies. *)
Record NewBook : Type := {
  nb_title : string;
  nb_author : string;
  nb_isbn : string;
  nb_description : option string;
  nb_price : string;
  nb_stock : option Z;
  nb_category : option string;
  nb_publishedDate : option Z;
  nb_coverImage : option string
}.

(** The database together with the sequence behind [books.id]. *)
Record Catalogue : Type := {
  store : Db;
  books_id_seq : Z
}.

Definition MC (A : Type) : Type := Catalogue -> Outcome A * Catalogue.

(** The inserted row: [stock] defaults to 0, the timestamps to now().
    The price is kept in the text that was sent; the server returns it
    with two decimals. *)
Definition new_book (now : Z) (key : Z) (v : NewBook) : Book.t :=
  {| Book.id := key;
     Book.title := nb_title v;
     Book.author := nb_author v;
     Book.isbn := nb_isbn v;
     Book.description := nb_description v;
     Book.price := nb_price v;
     Book.stock := or_else (nb_stock v) (Some 0);
     Book.category := nb_category v;
     Book.publishedDate := nb_publishedDate v;
     Book.coverImage := nb_coverImage v;
     Book.createdAt := Some now;
     Book.updatedAt := Some now |}.

(** The stock that an insertion supplies, if any, is a value of the
    column. *)
Definition new_stock_in_range (v : NewBook) : bool :=
  match nb_stock v with
  | Some quantity => int4 quantity
  | None => true
  end.

(** [db.insert(books).values(v).returning()].  The key is the next value
    of the sequence, which ends with the [integer] type. *)
Definition insert_book (now : Z) (v : NewBook) : MC (list Book.t) :=
  fun cat =>
    let row := new_book now (books_id_seq cat) v in
    let rows := books (store cat) ++ [row] in
    if books_constraints rows
    then
      if negb (new_stock_in_range v)
      then (Throw out_of_range, cat)
      else if negb (int4 (books_id_seq cat))
      then (Throw (QueryError "nextval: reached maximum value of sequence"),
            cat)
      else (Ok [row],
            {| store := with_books (store cat) rows;
               books_id_seq := books_id_seq cat + 1 |})
    else (Throw (QueryError "duplicate key value violates unique constraint"),
          {| store := store cat; books_id_seq := books_id_seq cat + 1 |}).

Module BooksService.

Definition not_found (id : Z) : Exception :=
    NotFoundException
      (String.append "Book with ID " (String.append (string_of_Z id) " not found")).

Definition first_or_not_found (id : Z) (rows : list Book.t) : M Book.t :=
    match rows with
    | [] => throw (not_found id)
    | book :: _ => ret book
    end.

Definition findAll : M (list Book.t) :=
    select_books (fun _ => true).

Definition findOne (id : Z) : M Book.t :=
    rows <- select_books_where (eq_book_id id) ;;
    first_or_not_found id rows.

  (** [updateData] as it stands when the query is issued. *)
Definition updateData (env : Env) (updateBookDto : UpdateBookDto) : BookSet :=
    {| bset_title := upd_title updateBookDto;
       bset_author := upd_author updateBookDto;
       bset_isbn := upd_isbn updateBookDto;
       bset_description := upd_description updateBookDto;
       bset_price :=
         match upd_price updateBookDto with
         | Some price =>
             if truthy_number price
             then Some (PString (number_toString price))
             else Some (PNumber price)
         | None => None
         end;
       bset_stock := upd_stock updateBookDto;
       bset_category := upd_category updateBookDto;
       bset_publishedDate := upd_publishedDate updateBookDto;
       bset_coverImage := upd_coverImage updateBookDto;
       bset_updatedAt := Some (now env) |}.

Definition update (env : Env) (id : Z) (updateBookDto : UpdateBookDto) : M Book.t :=
    rows <- update_books (updateData env updateBookDto) (eq_book_id id) ;;
    first_or_not_found id rows.

Definition remove (id : Z) : M unit :=
    result <- delete_books (eq_book_id id) ;;
    if Nat.eqb (List.length result) 0 then throw (not_found id) else ret tt.

Definition findByCategory (category : string) : M (list Book.t) :=
    select_books (fun b => option_eqb (Book.category b) category).

  (** [`%${query}%`] *)
Definition contains_pattern (query : string) : list ascii :=
    list_ascii_of_string (String.append "%" (String.append query "%")).

Definition search_where (pattern : list LikeToken) (b : Book.t) : bool :=
    holds (sql_or (sql_or (ilike (Some (Book.title b)) pattern)
                          (ilike (Some (Book.author b)) pattern))
                  (ilike (Book.description b) pattern)).

Definition search (query : string) : M (list Book.t) :=
    match like_tokens (contains_pattern query) with
    | Some pattern => select_books (search_where pattern)
    | None => throw (QueryError "LIKE pattern must not end with escape character")
    end.

Definition updateStock (env : Env) (id : Z) (quantity : Z) : M Book.t :=
    rows <- update_books
              {| bset_title := None; bset_author := None; bset_isbn := None;
                 bset_description := None; bset_price := None;
                 bset_stock := Some quantity;
                 bset_category := None; bset_publishedDate := None;
                 bset_coverImage := None;
                 bset_updatedAt := Some (now env) |}
              (eq_book_id id) ;;
    first_or_not_found id rows.

(** [create]: [book] is the first row returned, [undefined] if none. *)
Definition create (env : Env) (createBookDto : CreateBookDto)
    : MC (option Book.t) :=
    let newBook :=
      {| nb_title := cr_title createBookDto;
         nb_author := cr_author createBookDto;
         nb_isbn := cr_isbn createBookDto;
         nb_description := cr_description createBookDto;
         nb_price := number_toString (cr_price createBookDto);
         nb_stock := cr_stock createBookDto;
         nb_category := cr_category createBookDto;
         nb_publishedDate := cr_publishedDate createBookDto;
         nb_coverImage := cr_coverImage createBookDto |} in
    fun cat =>
      match insert_book (now env) newBook cat with
      | (Ok rows, cat') => (Ok (hd_error rows), cat')
      | (Throw e, cat') => (Throw e, cat')
      end.

Definition author_where (pattern : list LikeToken) (b : Book.t) : bool :=
    holds (ilike (Some (Book.author b)) pattern).

Definition findByAuthor (author : string) : M (list Book.t) :=
    match like_tokens (contains_pattern author) with
    | Some pattern => select_books (author_where pattern)
    | None => throw (QueryError "LIKE pattern must not end with escape character")
    end.

Definition isbn_not_found (isbn : string) : Exception :=
    NotFoundException
      (String.append "Book with ISBN " (String.append isbn " not found")).

Definition eq_isbn (isbn : string) (b : Book.t) : bool :=
    String.eqb (Book.isbn b) isbn.

Definition findByIsbn (isbn : string) : M Book.t :=
    rows <- select_books (eq_isbn isbn) ;;
    match rows with
    | [] => throw (isbn_not_found isbn)
    | book :: _ => ret book
    end.

End BooksService.

(** ** Well-formed stores and the properties in the specification's words *)

(** A store the database can be in: the constraints of the migration hold
    and the sequence is ahead of every key it has handed out. *)
Definition wf_users (db : Db) : bool :=
  users_constraints (users db)
  && forallb (fun u => User.id u <? users_id_seq db) (users db).

(** A [books] table the database can be in: the constraints hold and
    every key is a value of the [integer] column. *)
Definition wf_books (db : Db) : bool :=
  books_constraints (books db)
  && forallb (fun b => int4 (Book.id b)) (books db).

(** The same record with another value in its password column. *)
Definition with_password (p : option string) (u : User.t) : User.t :=
  {| User.id := User.id u;
     User.email := User.email u;
     User.password := p;
     User.firstName := User.firstName u;
     User.lastName := User.lastName u;
     User.googleId := User.googleId u;
     User.avatar := User.avatar u;
     User.isActive := User.isActive u;
     User.createdAt := User.createdAt u;
     User.updatedAt := User.updatedAt u |}.

(** The public record together with a password column: the inverse of
    [withoutPassword] up to that column. *)
Definition restore (p : option string) (v : PublicUser.t) : User.t :=
  {| User.id := PublicUser.id v;
     User.email := PublicUser.email v;
     User.password := p;
     User.firstName := PublicUser.firstName v;
     User.lastName := PublicUser.lastName v;
     User.googleId := PublicUser.googleId v;
     User.avatar := PublicUser.avatar v;
     User.isActive := PublicUser.isActive v;
     User.createdAt := PublicUser.createdAt v;
     User.updatedAt := PublicUser.updatedAt v |}.

(** validateCredentials as the specification words it: no match when the
    user is absent, the stored hash is absent, or verification fails;
    the full record otherwise. *)
Definition validateCredentials_spec `{PasswordHasher}
    (email plaintext : string) (rows : list User.t) : option User.t :=
  match hd_error (filter (eq_email email) rows) with
  | None => None
  | Some u =>
      match User.password u with
      | None => None
      | Some stored => if compare plaintext stored then Some u else None
      end
  end.

(** changePassword's three grounds for refusal, as the specification
    words them. *)
Definition change_refused `{PasswordHasher}
    (userId : Z) (currentPlaintext : string) (rows : list User.t) : bool :=
  match hd_error (filter (eq_id userId) rows) with
  | None => true
  | Some u =>
      match User.password u with
      | None => true
      | Some stored => negb (compare currentPlaintext stored)
      end
  end.

(** The query occurs in the text, letter case apart. *)
Fixpoint prefix_ci (query text : list ascii) : bool :=
  match query, text with
  | [], _ => true
  | _ :: _, [] => false
  | c :: query', d :: text' => same_letter c d && prefix_ci query' text'
  end.

Fixpoint occurs_ci (query text : list ascii) : bool :=
  prefix_ci query text
  || match text with [] => false | _ :: text' => occurs_ci query text' end.

Definition occurs_in (query text : string) : bool :=
  occurs_ci (list_ascii_of_string query) (list_ascii_of_string text).

(** The query occurs in the title, the author or the description. *)
Definition mentions (query : string) (b : Book.t) : bool :=
  occurs_in query (Book.title b)
  || occurs_in query (Book.author b)
  || match Book.description b with
     | Some d => occurs_in query d
     | None => false
     end.

(** Text that the server takes as a parameter: it has no NUL
    character. *)
Definition sql_text (s : string) : bool :=
  forallb (fun c => Nat.ltb 0 (nat_of_ascii c)) (list_ascii_of_string s).

(** Such text in which every character is an ASCII character. *)
Definition ascii_text (s : string) : bool :=
  sql_text s
  && forallb (fun c => Nat.ltb (nat_of_ascii c) 128) (list_ascii_of_string s).

(** The three columns [search] reads are ASCII text. *)
Definition ascii_fields (b : Book.t) : bool :=
  ascii_text (Book.title b)
  && ascii_text (Book.author b)
  && match Book.description b with
     | Some d => ascii_text d
     | None => true
     end.

(** A character that [LIKE] reads as itself. *)
Definition plain_char (c : ascii) : bool :=
  negb (Ascii.eqb c "%") && negb (Ascii.eqb c "_") && negb (Ascii.eqb c "\").

Definition plain (query : string) : bool :=
  forallb plain_char (list_ascii_of_string query).

(** Two stores that show the same public records, row for row: they can
    differ in the password column only. *)
Definition same_public (db1 db2 : Db) : Prop :=
  map withoutPassword (users db1) = map withoutPassword (users db2).

(** Two records that differ in the password column at most. *)
Definition alike (u v : User.t) : Prop :=
  withoutPassword u = withoutPassword v.

(** A catalogue the database can be in: its [books] table is one, and
    the sequence is ahead of every key it has handed out. *)
Definition wf_catalogue (cat : Catalogue) : bool :=
  wf_books (store cat)
  && forallb (fun b => Book.id b <? books_id_seq cat) (books (store cat)).

(** Text that a [varchar(width)] column holds; the bytes counted here
    bound the characters that the column counts. *)
Definition fits (width : nat) (s : string) : bool :=
  sql_text s && (String.length s <=? width)%nat.

(** A condition on a value that may be absent. *)
Definition optional {A} (p : A -> bool) (v : option A) : bool :=
  match v with
  | Some x => p x
  | None => true
  end.

(** A price, in hundredths, that [numeric(10,2)] holds. *)
Definition numeric_10_2 (hundredths : Z) : bool :=
  Z.abs hundredths <? 10000000000.

(** An instant, in milliseconds, of the years 1 to 9999, which is what an
    ISO date string with a four-digit year denotes and within what a
    [timestamp] column holds. *)
Definition iso_instant (ms : Z) : bool :=
  (-62135596800000 <=? ms) && (ms <=? 253402300799999).

(** A DTO that the columns of [books] can hold. *)
Definition fits_columns (dto : CreateBookDto) : bool :=
  fits 255 (cr_title dto)
  && fits 255 (cr_author dto)
  && fits 13 (cr_isbn dto)
  && optional sql_text (cr_description dto)
  && numeric_10_2 (cr_price dto)
  && optional (fits 100) (cr_category dto)
  && optional iso_instant (cr_publishedDate dto)
  && optional sql_text (cr_coverImage dto)
  && optional int4 (cr_stock dto).

(** The same for the fields that an [UpdateBookDto] has. *)
Definition update_fits_columns (dto : UpdateBookDto) : bool :=
  optional (fits 255) (upd_title dto)
  && optional (fits 255) (upd_author dto)
  && optional (fits 13) (upd_isbn dto)
  && optional sql_text (upd_description dto)
  && optional numeric_10_2 (upd_price dto)
  && optional (fits 100) (upd_category dto)
  && optional iso_instant (upd_publishedDate dto)
  && optional sql_text (upd_coverImage dto)
  && optional int4 (upd_stock dto).

(** A query made of percent signs only. *)
Definition only_percent (query : string) : bool :=
  forallb (fun c => Ascii.eqb c "%") (list_ascii_of_string query).

(** ** Stand-ins for the collaborators, and sample data *)

(** A hasher that keeps the plaintext behind a marker.  It satisfies the
    laws of [PasswordHasher]. *)
Definition marker_hash (plaintext : string) (rounds : nat) (salt : string) : string :=
  String.append "$2a$" plaintext.

Definition marker_compare (plaintext stored : string) : bool :=
  String.eqb stored (String.append "$2a$" plaintext).

Definition marker_hasher : PasswordHasher.
Proof.
  refine {| hash := marker_hash; compare := marker_compare |}.
  - intros; apply String.eqb_refl.
  - intros; reflexivity.
Defined.

(** A token that is its claims and its time of issue. *)
Definition clear_jwt : JwtService.
Proof.
  refine {| token := JwtPayload * Z;
            sign := fun payload issued => (payload, issued);
            decode := fun t => Some (fst t) |}.
  intros; reflexivity.
Defined.

Definition alice : User.t :=
  {| User.id := 1; User.email := "a@b.com";
     User.password := Some "$2a$secret1";
     User.firstName := Some "Alice"; User.lastName := None;
     User.googleId := None; User.avatar := None;
     User.isActive := Some true;
     User.createdAt := Some 100; User.updatedAt := Some 100 |}.

Definition bob : User.t :=
  {| User.id := 2; User.email := "bob@example.com";
     User.password := None;
     User.firstName := Some "Bob"; User.lastName := Some "Stone";
     User.googleId := Some "g-bob"; User.avatar := None;
     User.isActive := Some true;
     User.createdAt := Some 200; User.updatedAt := Some 200 |}.

Definition dune : Book.t :=
  {| Book.id := 1; Book.title := "Dune"; Book.author := "Frank Herbert";
     Book.isbn := "9780441013593"; Book.description := None;
     Book.price := "9.99"; Book.stock := Some 3;
     Book.category := Some "scifi"; Book.publishedDate := None;
     Book.coverImage := None;
     Book.createdAt := Some 50; Book.updatedAt := Some 50 |}.

Definition sample_db : Db :=
  {| users := [alice; bob]; users_id_seq := 3; books := [dune] |}.

(** The sample store with other contents in every password column. *)
Definition sample_db_rehashed : Db :=
  {| users := [with_password (Some "$2a$another") alice;
               with_password (Some "$2a$added") bob];
     users_id_seq := 3; books := [dune] |}.

Definition no_changes : UpdateBookDto :=
  {| upd_title := None; upd_author := None; upd_isbn := None;
     upd_description := None; upd_price := None; upd_stock := None;
     upd_category := None; upd_publishedDate := None; upd_coverImage := None |}.

(** [{ price: 0 }] and [{ price: 19.99 }] *)
Definition free_of_charge : UpdateBookDto :=
  {| upd_title := None; upd_author := None; upd_isbn := None;
     upd_description := None; upd_price := Some 0; upd_stock := None;
     upd_category := None; upd_publishedDate := None; upd_coverImage := None |}.

Definition repriced : UpdateBookDto :=
  {| upd_title := None; upd_author := None; upd_isbn := None;
     upd_description := None; upd_price := Some 1999; upd_stock := None;
     upd_category := None; upd_publishedDate := None; upd_coverImage := None |}.

(** [{ title: 'Dune (revised)', stock: 7 }] *)
Definition revised : UpdateBookDto :=
  {| upd_title := Some "Dune (revised)"; upd_author := None; upd_isbn := None;
     upd_description := None; upd_price := None; upd_stock := Some 7;
     upd_category := None; upd_publishedDate := None; upd_coverImage := None |}.

(** Erin has a password and an avatar; her Google profile has no photo. *)
Definition erin : User.t :=
  {| User.id := 5; User.email := "erin@example.com";
     User.password := Some "$2a$opensesame";
     User.firstName := Some "Erin"; User.lastName := None;
     User.googleId := None; User.avatar := Some "https://img/erin.png";
     User.isActive := Some true;
     User.createdAt := Some 300; User.updatedAt := Some 300 |}.

Definition erin_db : Db :=
  {| users := [alice; erin]; users_id_seq := 6; books := [dune] |}.

Definition erin_profile : Profile :=
  {| profile_id := "g-erin";
     emails := [ {| value := "erin@example.com" |} ];
     name := {| givenName := Some "Erin"; familyName := None |};
     photos := [] |}.

(** [{ email: "bob@example.com" }] and [{ firstName: "Alicia" }] *)
Definition take_bobs_email : UpdateUserDto :=
  {| dto_email := Some "bob@example.com"; dto_firstName := None;
     dto_lastName := None; dto_avatar := None |}.

Definition rename_to_alicia : UpdateUserDto :=
  {| dto_email := None; dto_firstName := Some "Alicia";
     dto_lastName := None; dto_avatar := None |}.

Definition hyperion : Book.t :=
  {| Book.id := 2; Book.title := "Hyperion"; Book.author := "Dan Simmons";
     Book.isbn := "9780553283686"; Book.description := Some "Seven pilgrims";
     Book.price := "12.5"; Book.stock := Some 0;
     Book.category := Some "scifi"; Book.publishedDate := None;
     Book.coverImage := None;
     Book.createdAt := Some 60; Book.updatedAt := Some 60 |}.

Definition two_books_db : Db :=
  {| users := [alice; bob]; users_id_seq := 3; books := [dune; hyperion] |}.


Definition sample_catalogue : Catalogue :=
  {| store := sample_db; books_id_seq := 2 |}.

Definition hyperion_dto : CreateBookDto :=
  {| cr_title := "Hyperion"; cr_author := "Dan Simmons";
     cr_isbn := "9780553283686"; cr_description := None;
     cr_price := 799; cr_stock := None; cr_category := Some "scifi";
     cr_publishedDate := None; cr_coverImage := None |}.


Definition sample_env : Env := {| now := 1000; salt := "s1" |}.

Definition later_env : Env := {| now := 2000; salt := "s2" |}.

Definition alice_profile : Profile :=
  {| profile_id := "g-alice";
     emails := [ {| value := "a@b.com" |} ];
     name := {| givenName := Some "Alice"; familyName := None |};
     photos := [ {| value := "https://img/alice.png" |} ] |}.

Definition carol_profile : Profile :=
  {| profile_id := "g-carol";
     emails := [ {| value := "carol@example.com" |} ];
     name := {| givenName := Some "Carol"; familyName := Some "Reed" |};
     photos := [] |}.


Definition dave_registration : RegisterData :=
  {| reg_email := "dave@example.com"; reg_password := "hunter22";
     reg_firstName := Some "Dave"; reg_lastName := None |}.

(** * Facts about lists and the constraints *)

Lemma existsb_string_In (x : string) (l : list string) :
  existsb (String.eqb x) l = true <-> In x l.
Proof.
  rewrite existsb_exists. split.
  - intros [y [Hy E]]. apply String.eqb_eq in E. now subst.
  - intros H. exists x. split; [assumption | apply String.eqb_refl].
Qed.

Lemma existsb_Z_In (x : Z) (l : list Z) :
  existsb (Z.eqb x) l = true <-> In x l.
Proof.
  rewrite existsb_exists. split.
  - intros [y [Hy E]]. apply Z.eqb_eq in E. now subst.
  - intros H. exists x. split; [assumption | apply Z.eqb_refl].
Qed.

Lemma distinct_NoDup (l : list string) : distinct l = true <-> NoDup l.
Proof.
  induction l as [|x t IH]; simpl.
  - split; [constructor | reflexivity].
  - rewrite andb_true_iff, negb_true_iff, IH, NoDup_cons_iff.
    rewrite <- not_true_iff_false, existsb_string_In. reflexivity.
Qed.

Lemma distinctZ_NoDup (l : list Z) : distinctZ l = true <-> NoDup l.
Proof.
  induction l as [|x t IH]; simpl.
  - split; [constructor | reflexivity].
  - rewrite andb_true_iff, negb_true_iff, IH, NoDup_cons_iff.
    rewrite <- not_true_iff_false, existsb_Z_In. reflexivity.
Qed.

Lemma users_constraints_iff (rows : list User.t) :
  users_constraints rows = true <->
  NoDup (map User.id rows) /\ NoDup (map User.email rows)
  /\ NoDup (somes (map User.googleId rows)).
Proof.
  unfold users_constraints.
  rewrite !andb_true_iff, distinctZ_NoDup, !distinct_NoDup. tauto.
Qed.

Lemma somes_app {A} (l1 l2 : list (option A)) :
  somes (l1 ++ l2) = somes l1 ++ somes l2.
Proof.
  induction l1 as [|[x|] t IH]; simpl; [reflexivity | now rewrite IH | assumption].
Qed.

Lemma somes_map_Some {A K} (f : A -> K) (l : list A) :
  somes (map (fun a => Some (f a)) l) = map f l.
Proof.
  induction l as [|a t IH]; simpl; [reflexivity | now rewrite IH].
Qed.

Lemma In_somes {A K} (f : A -> option K) (l : list A) (k : K) :
  In k (somes (map f l)) <-> exists a, In a l /\ f a = Some k.
Proof.
  induction l as [|a t IH]; simpl.
  - split; [tauto | intros [a [[] _]]].
  - destruct (f a) as [x|] eqn:E; simpl; rewrite IH; split.
    + intros [->|[b [Hb Fb]]]; [exists a; auto | exists b; auto].
    + intros [b [[->|Hb] Fb]]; [left; congruence | right; exists b; auto].
    + intros [b [Hb Fb]]; exists b; auto.
    + intros [b [[->|Hb] Fb]]; [congruence | exists b; auto].
Qed.

Lemma NoDup_somes_tail {A K} (f : A -> option K) (a : A) (t : list A) :
  NoDup (somes (map f (a :: t))) -> NoDup (somes (map f t)).
Proof.
  simpl. destruct (f a); [now rewrite NoDup_cons_iff | trivial].
Qed.

Lemma filter_nil {A} (p : A -> bool) (l : list A) :
  (forall v, In v l -> p v = false) -> filter p l = [].
Proof.
  induction l as [|a t IH]; simpl; intros H; [reflexivity|].
  rewrite (H a (or_introl eq_refl)). apply IH. intros v Hv. apply H. now right.
Qed.

Lemma filter_nil_inv {A} (p : A -> bool) (l : list A) :
  filter p l = [] -> forall v, In v l -> p v = false.
Proof.
  intros E v Hv. destruct (p v) eqn:Pv; [|reflexivity].
  assert (In v (filter p l)) as Hin by (apply filter_In; auto).
  rewrite E in Hin. destruct Hin.
Qed.

Lemma hd_filter_Some {A} (p : A -> bool) (l : list A) (u : A) :
  hd_error (filter p l) = Some u -> In u l /\ p u = true.
Proof.
  intros H. apply filter_In. destruct (filter p l) as [|x t]; [discriminate|].
  injection H as ->. now left.
Qed.

Lemma hd_filter_None {A} (p : A -> bool) (l : list A) :
  hd_error (filter p l) = None -> filter p l = [].
Proof. destruct (filter p l); [reflexivity | discriminate]. Qed.

(** Under a uniqueness constraint on the key [f], a query that pins the
    key to [k] returns the one row that carries it. *)
Lemma filter_unique {A K} (f : A -> option K) (p : A -> bool)
    (l : list A) (u : A) (k : K) :
  NoDup (somes (map f l)) ->
  In u l -> p u = true -> f u = Some k ->
  (forall v, In v l -> p v = true -> f v = Some k) ->
  filter p l = [u].
Proof.
  induction l as [|a t IH]; intros ND Hu Pu Fu Hp; [destruct Hu|].
  destruct Hu as [->|Hu].
  - simpl. rewrite Pu. f_equal. apply filter_nil. intros v Hv.
    destruct (p v) eqn:Pv; [exfalso | reflexivity].
    simpl in ND. rewrite Fu in ND. apply NoDup_cons_iff in ND as [Hk _].
    apply Hk, In_somes. exists v. split; [assumption|].
    apply Hp; [now right | assumption].
  - assert (p a = false) as Pa.
    { destruct (p a) eqn:Pa; [exfalso | reflexivity].
      pose proof (Hp a (or_introl eq_refl) Pa) as Fa.
      simpl in ND. rewrite Fa in ND. apply NoDup_cons_iff in ND as [Hk _].
      apply Hk, In_somes. exists u. auto. }
    simpl. rewrite Pa. apply IH; auto.
    + eapply NoDup_somes_tail; eassumption.
    + intros v Hv. apply Hp. now right.
Qed.

Lemma filter_unique_total {A K} (f : A -> K) (p : A -> bool)
    (l : list A) (u : A) :
  NoDup (map f l) ->
  In u l -> p u = true ->
  (forall v, In v l -> p v = true -> f v = f u) ->
  filter p l = [u].
Proof.
  intros ND Hu Pu Hp.
  apply (filter_unique (fun a => Some (f a)) p l u (f u)); auto.
  - now rewrite somes_map_Some.
  - intros v Hv Pv. f_equal. auto.
Qed.

Lemma eq_id_true (k : Z) (u : User.t) : eq_id k u = true <-> User.id u = k.
Proof. apply Z.eqb_eq. Qed.

Lemma eq_email_true (e : string) (u : User.t) :
  eq_email e u = true <-> User.email u = e.
Proof. apply String.eqb_eq. Qed.

Lemma eq_googleId_true (g : string) (u : User.t) :
  eq_googleId g u = true <-> User.googleId u = Some g.
Proof.
  unfold eq_googleId, option_eqb. destruct (User.googleId u) as [x|].
  - rewrite String.eqb_eq. split; congruence.
  - split; discriminate.
Qed.

Lemma with_books_same (db : Db) : with_books db (books db) = db.
Proof. now destruct db. Qed.

(** * Facts about the write primitives *)

Lemma update_rows_ids s p rows :
  map User.id (update_rows s p rows) = map User.id rows.
Proof.
  unfold update_rows. rewrite map_map. apply map_ext.
  intros u. now destruct (p u).
Qed.

Lemma update_rows_emails s p rows :
  set_email s = None ->
  map User.email (update_rows s p rows) = map User.email rows.
Proof.
  intros E. unfold update_rows. rewrite map_map. apply map_ext.
  intros u. destruct (p u); simpl; [now rewrite E | reflexivity].
Qed.

Lemma update_rows_googleIds s p rows :
  set_googleId s = None ->
  map User.googleId (update_rows s p rows) = map User.googleId rows.
Proof.
  intros E. unfold update_rows. rewrite map_map. apply map_ext.
  intros u. destruct (p u); simpl; [now rewrite E | reflexivity].
Qed.

Lemma update_rows_length s p rows :
  List.length (update_rows s p rows) = List.length rows.
Proof. apply length_map. Qed.

Lemma update_rows_none s p rows :
  (forall v, In v rows -> p v = false) -> update_rows s p rows = rows.
Proof.
  intros H. unfold update_rows. rewrite <- (map_id rows) at 2.
  apply map_ext_in. intros u Hu. now rewrite (H u Hu).
Qed.

Lemma In_update_rows s p rows u :
  In u rows -> p u = true -> In (apply_set s u) (update_rows s p rows).
Proof.
  intros Hu Pu. unfold update_rows. apply in_map_iff.
  exists u. now rewrite Pu.
Qed.

Lemma In_update_rows_inv s p rows v :
  In v (update_rows s p rows) ->
  exists u, In u rows /\ v = (if p u then apply_set s u else u).
Proof.
  unfold update_rows. intros H. apply in_map_iff in H as [u [E Hu]].
  exists u. auto.
Qed.

Lemma absent_id_unmatched (k : Z) (rows : list User.t) :
  ~ In k (map User.id rows) -> forall v, In v rows -> eq_id k v = false.
Proof.
  intros H v Hv. destruct (eq_id k v) eqn:E; [|reflexivity].
  apply eq_id_true in E. exfalso. apply H. rewrite <- E. now apply in_map.
Qed.

(** Setting a fresh external id on the row with key [k] keeps the external
    ids distinct. *)
Lemma link_keeps_googleIds_distinct s k g rows :
  set_googleId s = Some g ->
  NoDup (map User.id rows) ->
  NoDup (somes (map User.googleId rows)) ->
  ~ In g (somes (map User.googleId rows)) ->
  NoDup (somes (map User.googleId (update_rows s (eq_id k) rows))).
Proof.
  intros Sg. induction rows as [|a t IH]; intros Nid Ng Fresh; [constructor|].
  apply NoDup_cons_iff in Nid as [Ha Nid].
  assert (~ In g (somes (map User.googleId t))) as Fresh'.
  { intros Hin. apply Fresh. simpl.
    destruct (User.googleId a); [now right | assumption]. }
  pose proof (NoDup_somes_tail _ _ _ Ng) as Ng'.
  change (update_rows s (eq_id k) (a :: t))
    with ((if eq_id k a then apply_set s a else a) :: update_rows s (eq_id k) t).
  destruct (eq_id k a) eqn:Ka.
  - apply eq_id_true in Ka. subst k.
    rewrite (update_rows_none s _ t (absent_id_unmatched _ _ Ha)).
    simpl. rewrite Sg. simpl. constructor; assumption.
  - simpl. destruct (User.googleId a) as [x|] eqn:Ga; [|now apply IH].
    constructor; [|now apply IH].
    intros Hin. apply In_somes in Hin as [b [Hb Gb]].
    apply In_update_rows_inv in Hb as [c [Hc ->]].
    destruct (eq_id k c).
    + simpl in Gb. rewrite Sg in Gb. injection Gb as <-.
      apply Fresh. simpl. rewrite Ga. now left.
    + simpl in Ng. rewrite Ga in Ng. apply NoDup_cons_iff in Ng as [Hx _].
      apply Hx, In_somes. exists c. auto.
Qed.

Lemma wf_users_iff (db : Db) :
  wf_users db = true <->
  (NoDup (map User.id (users db)) /\ NoDup (map User.email (users db))
   /\ NoDup (somes (map User.googleId (users db))))
  /\ forall u, In u (users db) -> User.id u < users_id_seq db.
Proof.
  unfold wf_users. rewrite andb_true_iff, users_constraints_iff, forallb_forall.
  split; intros [C H]; (split; [exact C|]); intros u Hu; specialize (H u Hu).
  - now apply Z.ltb_lt.
  - now apply Z.ltb_lt.
Qed.

Lemma wf_users_constraints (db : Db) :
  wf_users db = true -> users_constraints (users db) = true.
Proof. unfold wf_users. now intros H%andb_true_iff. Qed.

(** An update that leaves the email and the external id alone is accepted
    by a well-formed store and keeps it well formed. *)
Lemma update_users_plain s p db :
  set_email s = None -> set_googleId s = None ->
  wf_users db = true ->
  update_users s p db
  = (Ok (map (apply_set s) (filter p (users db))),
     with_users db (update_rows s p (users db)) (users_id_seq db))
  /\ wf_users (with_users db (update_rows s p (users db)) (users_id_seq db)) = true.
Proof.
  intros Se Sg W.
  assert (users_constraints (update_rows s p (users db)) = true) as C.
  { unfold users_constraints.
    rewrite update_rows_ids, update_rows_emails, update_rows_googleIds by assumption.
    now apply wf_users_constraints. }
  split.
  - unfold update_users. now rewrite C.
  - unfold wf_users. simpl. rewrite C. simpl.
    apply forallb_forall. intros v Hv.
    apply In_update_rows_inv in Hv as [u [Hu ->]].
    apply wf_users_iff in W as [_ W]. specialize (W u Hu).
    apply Z.ltb_lt. now destruct (p u).
Qed.

(** The link update of [googleLogin], when no row carries the external id
    yet. *)
Lemma update_users_link s k g db :
  set_email s = None -> set_googleId s = Some g ->
  wf_users db = true ->
  filter (eq_googleId g) (users db) = [] ->
  update_users s (eq_id k) db
  = (Ok (map (apply_set s) (filter (eq_id k) (users db))),
     with_users db (update_rows s (eq_id k) (users db)) (users_id_seq db))
  /\ wf_users (with_users db (update_rows s (eq_id k) (users db)) (users_id_seq db))
     = true.
Proof.
  intros Se Sg W Fresh.
  pose proof W as W'. apply wf_users_iff in W' as [[Nid [Nem Ngid]] Hseq].
  assert (users_constraints (update_rows s (eq_id k) (users db)) = true) as C.
  { apply users_constraints_iff.
    rewrite update_rows_ids, update_rows_emails by assumption.
    repeat split; try assumption.
    apply (link_keeps_googleIds_distinct s k g); try assumption.
    intros Hin. apply In_somes in Hin as [a [Ha Ga]].
    apply eq_googleId_true in Ga.
    now rewrite (filter_nil_inv _ _ Fresh a Ha) in Ga. }
  split.
  - unfold update_users. now rewrite C.
  - unfold wf_users. simpl. rewrite C. simpl.
    apply forallb_forall. intros v Hv.
    apply In_update_rows_inv in Hv as [u [Hu ->]].
    specialize (Hseq u Hu). apply Z.ltb_lt. now destruct (eq_id k u).
Qed.

(** An insert whose email and external id are new is accepted by a
    well-formed store, takes the next key and keeps the store well
    formed. *)
Lemma insert_user_fresh t v db :
  wf_users db = true ->
  filter (eq_email (new_email v)) (users db) = [] ->
  (forall g, new_googleId v = Some g -> filter (eq_googleId g) (users db) = []) ->
  let row := new_row t (users_id_seq db) v in
  let db' := with_users db (users db ++ [row]) (users_id_seq db + 1) in
  insert_user t v db = (Ok [row], db') /\ wf_users db' = true.
Proof.
  intros W Fe Fg row db'.
  pose proof W as W'. apply wf_users_iff in W' as [[Nid [Nem Ngid]] Hseq].
  assert (users_constraints (users db ++ [row]) = true) as C.
  { apply users_constraints_iff. rewrite !map_app, somes_app. simpl.
    repeat split.
    - apply NoDup_app; [assumption | repeat constructor; intros [] |].
      intros a Ha [<-|[]]. apply in_map_iff in Ha as [u [E Hu]].
      specialize (Hseq u Hu). lia.
    - apply NoDup_app; [assumption | repeat constructor; intros [] |].
      intros a Ha [<-|[]]. apply in_map_iff in Ha as [u [E Hu]].
      apply eq_email_true in E. now rewrite (filter_nil_inv _ _ Fe u Hu) in E.
    - apply NoDup_app; [assumption | |].
      + destruct (new_googleId v); repeat constructor; intros [].
      + intros a Ha Hin. destruct (new_googleId v) as [g|] eqn:G; [|destruct Hin].
        destruct Hin as [<-|[]]. apply In_somes in Ha as [u [Hu Gu]].
        apply eq_googleId_true in Gu.
        now rewrite (filter_nil_inv _ _ (Fg g eq_refl) u Hu) in Gu. }
  split.
  - unfold insert_user. fold row. now rewrite C.
  - unfold wf_users. subst db'. simpl. rewrite C. simpl.
    apply forallb_forall. intros u Hu. apply Z.ltb_lt.
    apply in_app_iff in Hu as [Hu|[<-|[]]].
    + specialize (Hseq u Hu). lia.
    + simpl. lia.
Qed.

(** * The Auth Core *)

Section AuthCore.
Context {bcrypt : PasswordHasher} {jwtService : JwtService}.

Import AuthService.

Lemma findUserByEmail_run email db :
  findUserByEmail email db = (Ok (hd_error (filter (eq_email email) (users db))), db).
Proof. reflexivity. Qed.

Lemma findUserByGoogleId_run g db :
  findUserByGoogleId g db = (Ok (hd_error (filter (eq_googleId g) (users db))), db).
Proof. reflexivity. Qed.

Lemma findUserById_run id db :
  findUserById id db = (Ok (hd_error (filter (eq_id id) (users db))), db).
Proof. reflexivity. Qed.

Lemma compare_truthy plaintext stored :
  compare plaintext stored = true -> truthy_string stored = true.
Proof.
  intros C. unfold truthy_string. destruct (String.eqb stored "") eqn:E; [|reflexivity].
  apply String.eqb_eq in E. subst. rewrite compare_empty in C. discriminate.
Qed.

Lemma truthy_and_compare plaintext stored :
  truthy_string stored && compare plaintext stored = compare plaintext stored.
Proof.
  destruct (compare plaintext stored) eqn:C.
  - now rewrite (compare_truthy _ _ C).
  - apply andb_false_r.
Qed.

Lemma validateUser_run email plaintext db :
  validateUser email plaintext db
  = (Ok (validateCredentials_spec email plaintext (users db)), db).
Proof.
  unfold validateUser, validateCredentials_spec, bind.
  rewrite findUserByEmail_run.
  destruct (hd_error (filter (eq_email email) (users db))) as [u|]; [|reflexivity].
  destruct (User.password u) as [stored|]; [|reflexivity].
  rewrite truthy_and_compare. now destruct (compare plaintext stored).
Qed.


Lemma restore_withoutPassword u :
  restore (User.password u) (withoutPassword u) = u.
Proof. now destruct u. Qed.

(** C5. [login] returns a token whose decoded subject is the user's id,
    with the public record of the user, a record type without a password
    field; the response is the same whatever the password column held.
    [getProfile] is that same projection: it reads no store, and the
    public record differs from the user record by the password alone. *)
Theorem login_and_getProfile_project (env : Env) (u : User.t) (db : Db) :
  (exists r,
      login env u db = (Ok r, db)
      /\ option_map sub (decode (access_token r)) = Some (User.id u)
      /\ user r = withoutPassword u)
  /\ (forall p, login env (with_password p u) db = login env u db)
  /\ AuthController.getProfile u db = (Ok (withoutPassword u), db)
  /\ (forall p, AuthController.getProfile (with_password p u) db
                = AuthController.getProfile u db)
  /\ restore (User.password u) (withoutPassword u) = u.
Proof.
  split; [|split; [|split; [|split]]].
  - eexists. split; [reflexivity|]. simpl. now rewrite decode_sign.
  - reflexivity.
  - reflexivity.
  - reflexivity.
  - apply restore_withoutPassword.
Qed.

End AuthCore.

(** * Password change and registration *)

Section Credentials.
Context {bcrypt : PasswordHasher} {jwtService : JwtService}.

Import AuthService.

Lemma changePassword_refused env userId current new db :
  change_refused userId current (users db) = true ->
  exists message,
    changePassword env userId current new db
    = (Throw (UnauthorizedException message), db).
Proof.
  unfold change_refused, changePassword, bind. rewrite findUserById_run.
  destruct (hd_error (filter (eq_id userId) (users db))) as [u|];
    [|intros _; eexists; reflexivity].
  destruct (User.password u) as [stored|]; simpl;
    [|intros _; eexists; reflexivity].
  intros C. apply negb_true_iff in C.
  destruct (truthy_string stored); simpl; [|eexists; reflexivity].
  rewrite C. simpl. eexists; reflexivity.
Qed.

Lemma changePassword_accepted env userId current new db :
  wf_users db = true ->
  change_refused userId current (users db) = false ->
  changePassword env userId current new db
  = (Ok tt,
     with_users db
       (update_rows (password_set (hash new 10 (salt env)) (now env))
          (eq_id userId) (users db))
       (users_id_seq db)).
Proof.
  intros W. unfold change_refused, changePassword, bind. rewrite findUserById_run.
  destruct (hd_error (filter (eq_id userId) (users db))) as [u|]; [|discriminate].
  destruct (User.password u) as [stored|]; simpl; [|discriminate].
  intros C. apply negb_false_iff in C.
  rewrite (compare_truthy _ _ C), C. simpl.
  destruct (update_users_plain
              (password_set (hash new 10 (salt env)) (now env))
              (eq_id userId) db eq_refl eq_refl W) as [-> _].
  reflexivity.
Qed.

(** After an update by key that leaves emails alone, the row of [u] is
    the only one with [u]'s email, and the only one with [u]'s key. *)
Lemma updated_row_by_email s db u :
  set_email s = None ->
  wf_users db = true ->
  In u (users db) ->
  filter (eq_email (User.email u))
         (update_rows s (eq_id (User.id u)) (users db))
  = [apply_set s u].
Proof.
  intros Se W Hu. apply wf_users_iff in W as [[_ [Nem _]] _].
  apply (filter_unique_total User.email).
  - now rewrite update_rows_emails.
  - apply In_update_rows; [assumption | now apply eq_id_true].
  - apply eq_email_true. simpl. now rewrite Se.
  - intros v _ Pv. apply eq_email_true in Pv. simpl. now rewrite Se.
Qed.

Lemma updated_row_by_id s db u :
  wf_users db = true ->
  In u (users db) ->
  filter (eq_id (User.id u))
         (update_rows s (eq_id (User.id u)) (users db))
  = [apply_set s u].
Proof.
  intros W Hu. apply wf_users_iff in W as [[Nid _] _].
  apply (filter_unique_total User.id).
  - now rewrite update_rows_ids.
  - apply In_update_rows; [assumption | now apply eq_id_true].
  - now apply eq_id_true.
  - intros v _ Pv. now apply eq_id_true in Pv.
Qed.

(** C3, as amended.  On a well-formed store [changePassword] throws
    Unauthorized, leaving the store as it was, exactly when no user has
    the id, or the user has no password hash, or the current plaintext
    does not verify.  Otherwise it returns, and the user's row (still the
    only one with that id) carries the hash of the new plaintext and the
    time of the call; [validateUser] with the new password then returns
    that row.  [validateUser] with the old password then fails exactly
    when the old plaintext does not verify against the new hash, and
    returns the row when it does. *)
Theorem changePassword_contract (env : Env) (userId : Z)
    (current new : string) (db : Db) :
  wf_users db = true ->
  ((exists message,
       changePassword env userId current new db
       = (Throw (UnauthorizedException message), db))
   <-> change_refused userId current (users db) = true)
  /\ (change_refused userId current (users db) = false ->
      exists u db',
        let row :=
          apply_set (password_set (hash new 10 (salt env)) (now env)) u in
        hd_error (filter (eq_id userId) (users db)) = Some u
        /\ changePassword env userId current new db = (Ok tt, db')
        /\ wf_users db' = true
        /\ filter (eq_id userId) (users db') = [row]
        /\ User.password row = Some (hash new 10 (salt env))
        /\ User.updatedAt row = Some (now env)
        /\ validateUser (User.email u) new db' = (Ok (Some row), db')
        /\ validateUser (User.email u) current db'
           = (Ok (if compare current (hash new 10 (salt env))
                  then Some row else None), db')).
Proof.
  intros W. split.
  - split.
    + intros [message E].
      destruct (change_refused userId current (users db)) eqn:R; [reflexivity|].
      rewrite (changePassword_accepted env userId current new db W R) in E.
      discriminate.
    + apply changePassword_refused.
  - intros R.
    pose proof (changePassword_accepted env userId current new db W R) as Run.
    unfold change_refused in R.
    destruct (hd_error (filter (eq_id userId) (users db))) as [u|] eqn:F;
      [|discriminate].
    apply hd_filter_Some in F as [Hu Ku]. apply eq_id_true in Ku. subst userId.
    exists u. eexists. cbv zeta. split; [reflexivity|]. split; [exact Run|].
    split; [|split; [|split; [|split; [|split]]]].
    + apply (update_users_plain
               (password_set (hash new 10 (salt env)) (now env))
               (eq_id (User.id u)) db
               eq_refl eq_refl W).
    + simpl. now apply updated_row_by_id.
    + reflexivity.
    + reflexivity.
    + rewrite validateUser_run. unfold validateCredentials_spec. simpl.
      rewrite (updated_row_by_email
                 (password_set (hash new 10 (salt env)) (now env))
                 db u eq_refl W Hu).
      simpl.
      now rewrite compare_hash.
    + rewrite validateUser_run. unfold validateCredentials_spec. simpl.
      rewrite (updated_row_by_email
                 (password_set (hash new 10 (salt env)) (now env))
                 db u eq_refl W Hu).
      simpl.
      now destruct (compare current (hash new 10 (salt env))).
Qed.

(** The record [register] asks the store to insert. *)
Lemma register_fresh env userData db :
  wf_users db = true ->
  filter (eq_email (reg_email userData)) (users db) = [] ->
  let created :=
    new_row (now env) (users_id_seq db)
      {| new_email := reg_email userData;
         new_password := Some (hash (reg_password userData) 10 (salt env));
         new_firstName := reg_firstName userData;
         new_lastName := reg_lastName userData;
         new_googleId := None;
         new_avatar := None |} in
  let db' := with_users db (users db ++ [created]) (users_id_seq db + 1) in
  register env userData db = login env created db' /\ wf_users db' = true.
Proof.
  intros W Fe created db'.
  unfold register, bind. rewrite findUserByEmail_run, Fe. simpl.
  match goal with
  | |- context [insert_user ?t ?v db] =>
      destruct (insert_user_fresh t v db W Fe) as [Run W'];
        [intros g; discriminate|]
  end.
  rewrite Run. split; [reflexivity | exact W'].
Qed.

Lemma register_taken env userData db u :
  hd_error (filter (eq_email (reg_email userData)) (users db)) = Some u ->
  register env userData db
  = (Throw (UnauthorizedException "User already exists"), db).
Proof.
  intros F. unfold register, bind. now rewrite findUserByEmail_run, F.
Qed.

Lemma only_row_with_email db u :
  wf_users db = true -> In u (users db) ->
  filter (eq_email (User.email u)) (users db) = [u].
Proof.
  intros W Hu. apply wf_users_iff in W as [[_ [Nem _]] _].
  apply (filter_unique_total User.email); auto.
  - now apply eq_email_true.
  - intros v _ Pv. now apply eq_email_true in Pv.
Qed.


End Credentials.

(** * Third-party login *)

Section ThirdParty.
Context {jwtService : JwtService}.

Import AuthService.

Lemma only_row_with_googleId db u g :
  wf_users db = true -> In u (users db) -> User.googleId u = Some g ->
  filter (eq_googleId g) (users db) = [u].
Proof.
  intros W Hu Gu. apply wf_users_iff in W as [[_ [_ Ngid]] _].
  apply (filter_unique User.googleId _ _ _ g); auto.
  - now apply eq_googleId_true.
  - intros v _ Pv. now apply eq_googleId_true in Pv.
Qed.

Lemma googleLogin_known env profile first rest db u :
  emails profile = first :: rest ->
  hd_error (filter (eq_googleId (profile_id profile)) (users db)) = Some u ->
  googleLogin env profile db = login env u db.
Proof.
  intros E F. unfold googleLogin, bind.
  now rewrite E, findUserByGoogleId_run, F.
Qed.

Lemma googleLogin_link env profile first rest db u :
  wf_users db = true ->
  emails profile = first :: rest ->
  filter (eq_googleId (profile_id profile)) (users db) = [] ->
  hd_error (filter (eq_email (value first)) (users db)) = Some u ->
  let s := link_set (profile_id profile) (first_photo (photos profile)) in
  let db' :=
    with_users db (update_rows s (eq_id (User.id u)) (users db)) (users_id_seq db) in
  googleLogin env profile db
  = login env (linked (profile_id profile) (first_photo (photos profile)) u) db'
  /\ wf_users db' = true.
Proof.
  intros W E Fg Fe s db'.
  destruct (update_users_link s (User.id u) (profile_id profile) db
              eq_refl eq_refl W Fg) as [Run W'].
  split; [|exact W'].
  unfold googleLogin, bind.
  rewrite E, findUserByGoogleId_run, Fg. cbv iota beta. cbn [hd_error].
  rewrite findUserByEmail_run, Fe. cbv iota beta. fold s. now rewrite Run.
Qed.

Lemma googleLogin_create env profile first rest db :
  wf_users db = true ->
  emails profile = first :: rest ->
  filter (eq_googleId (profile_id profile)) (users db) = [] ->
  filter (eq_email (value first)) (users db) = [] ->
  let created :=
    new_row (now env) (users_id_seq db)
      {| new_email := value first;
         new_password := None;
         new_firstName := givenName (name profile);
         new_lastName := familyName (name profile);
         new_googleId := Some (profile_id profile);
         new_avatar := first_photo (photos profile) |} in
  let db' := with_users db (users db ++ [created]) (users_id_seq db + 1) in
  googleLogin env profile db = login env created db' /\ wf_users db' = true.
Proof.
  intros W E Fg Fe created db'.
  unfold googleLogin, bind.
  rewrite E, findUserByGoogleId_run, Fg. cbv iota beta. cbn [hd_error].
  rewrite findUserByEmail_run, Fe. cbv iota beta. cbn [hd_error].
  match goal with
  | |- context [insert_user ?t ?v db] =>
      destruct (insert_user_fresh t v db W Fe) as [Run W'];
        [intros g [= <-]; exact Fg|]
  end.
  rewrite Run. split; [reflexivity | exact W'].
Qed.

(** Whatever branch [googleLogin] takes on a well-formed store, it
    succeeds, and afterwards exactly one row carries the external id: the
    row of the user it logged in. *)
Lemma googleLogin_settles env profile first rest db :
  wf_users db = true ->
  emails profile = first :: rest ->
  exists u db',
    googleLogin env profile db = login env u db'
    /\ exists row,
         filter (eq_googleId (profile_id profile)) (users db') = [row]
         /\ User.id row = User.id u.
Proof.
  intros W E.
  destruct (hd_error (filter (eq_googleId (profile_id profile)) (users db)))
    as [u|] eqn:Fg.
  - exists u, db. split; [now apply (googleLogin_known env profile first rest)|].
    exists u. split; [|reflexivity].
    apply hd_filter_Some in Fg as [Hu Gu]. apply eq_googleId_true in Gu.
    now apply only_row_with_googleId.
  - apply hd_filter_None in Fg.
    destruct (hd_error (filter (eq_email (value first)) (users db)))
      as [u|] eqn:Fe.
    + destruct (googleLogin_link env profile first rest db u W E Fg Fe)
        as [Run W'].
      cbv zeta in Run, W'. eexists. eexists. split; [exact Run|].
      exists (apply_set
                (link_set (profile_id profile) (first_photo (photos profile))) u).
      split; [|reflexivity].
      apply (only_row_with_googleId _ _ _ W'); [|reflexivity].
      apply hd_filter_Some in Fe as [Hu _].
      apply In_update_rows; [assumption | now apply eq_id_true].
    + apply hd_filter_None in Fe.
      destruct (googleLogin_create env profile first rest db W E Fg Fe)
        as [Run W'].
      cbv zeta in Run, W'.
      match type of Run with
      | _ = login _ ?created _ =>
          eexists; eexists; split; [exact Run|]; exists created
      end.
      split; [|reflexivity].
      apply (only_row_with_googleId _ _ _ W'); [|reflexivity].
      apply in_app_iff. right. now left.
Qed.

(** C1.  For a profile with a primary email, on a well-formed store:
    a user found by the external id is logged in as found, the store
    untouched; failing that, a user found by the primary email has the
    row with their key updated to carry the external id, no row being
    added, so that the one row with that email is also the one row with
    that external id and keeps its password column; failing both, one row
    without a password is appended.  In every case the call succeeds, and
    any later call with the same external id logs in the same user id
    and leaves the store as it finds it. *)
Theorem googleLogin_upsert (env : Env) (profile : Profile)
    (first : Valued) (rest : list Valued) (db : Db) :
  wf_users db = true ->
  emails profile = first :: rest ->
  let id := profile_id profile in
  let photo := first_photo (photos profile) in
  (forall u,
      hd_error (filter (eq_googleId id) (users db)) = Some u ->
      googleLogin env profile db = login env u db
      /\ googleLogin env profile db
         = (Ok {| access_token := sign (payload_of u) (now env);
                  user := withoutPassword u |}, db))
  /\ (filter (eq_googleId id) (users db) = [] ->
      forall u,
        hd_error (filter (eq_email (value first)) (users db)) = Some u ->
        exists db',
          googleLogin env profile db = login env (linked id photo u) db'
          /\ users db'
             = update_rows (link_set id photo) (eq_id (User.id u)) (users db)
          /\ List.length (users db') = List.length (users db)
          /\ filter (eq_email (value first)) (users db')
             = [apply_set (link_set id photo) u]
          /\ filter (eq_googleId id) (users db')
             = [apply_set (link_set id photo) u]
          /\ User.id (apply_set (link_set id photo) u) = User.id u
          /\ User.password (apply_set (link_set id photo) u) = User.password u
          /\ User.googleId (apply_set (link_set id photo) u) = Some id)
  /\ (filter (eq_googleId id) (users db) = [] ->
      filter (eq_email (value first)) (users db) = [] ->
      exists created db',
        googleLogin env profile db = login env created db'
        /\ users db' = users db ++ [created]
        /\ User.password created = None
        /\ User.googleId created = Some id
        /\ User.email created = value first)
  /\ (exists r db',
        googleLogin env profile db = (Ok r, db')
        /\ forall env' again,
             profile_id again = id -> emails again <> [] ->
             exists r',
               googleLogin env' again db' = (Ok r', db')
               /\ PublicUser.id (user r') = PublicUser.id (user r)).
Proof.
  intros W E id photo. split; [|split; [|split]].
  - intros u F.
    split; now rewrite (googleLogin_known env profile first rest db u E F).
  - intros Fg u Fe.
    destruct (googleLogin_link env profile first rest db u W E Fg Fe)
      as [Run W'].
    cbv zeta in Run, W'. fold id photo in Run, W'.
    pose proof Fe as Fe'. apply hd_filter_Some in Fe' as [Hu Eu].
    apply eq_email_true in Eu.
    eexists. split; [exact Run|]. split; [reflexivity|].
    split; [apply update_rows_length|].
    split; [|split; [|repeat split]].
    + simpl. rewrite <- Eu.
      now apply (updated_row_by_email (link_set id photo) db u).
    + apply (only_row_with_googleId _ _ _ W'); [|reflexivity].
      simpl. apply In_update_rows; [assumption | now apply eq_id_true].
  - intros Fg Fe.
    destruct (googleLogin_create env profile first rest db W E Fg Fe)
      as [Run W'].
    cbv zeta in Run, W'. eexists. eexists. split; [exact Run|].
    repeat split.
  - destruct (googleLogin_settles env profile first rest db W E)
      as [u [db' [Run [row [One Same]]]]].
    eexists. exists db'. split; [exact Run|].
    intros env' again Id Some'.
    destruct (emails again) as [|first' rest'] eqn:E'; [contradiction|].
    eexists. split.
    + rewrite (googleLogin_known env' again first' rest' db' row E');
        [reflexivity|].
      rewrite Id. fold id in One. now rewrite One.
    + simpl. exact Same.
Qed.

(** C6.  A profile without email addresses makes [googleLogin] throw the
    runtime's TypeError for reading [value] of [undefined], before any
    lookup; the store is untouched. *)
Theorem googleLogin_without_emails (env : Env) (id : string)
    (n : ProfileName) (pictures : list Valued) (db : Db) :
  googleLogin env
    {| profile_id := id; emails := []; name := n; photos := pictures |} db
  = (Throw (TypeError "Cannot read properties of undefined (reading 'value')"),
     db).
Proof. reflexivity. Qed.

End ThirdParty.

(** * The Auth Core on the sample store *)

(** Alice changes her password from "secret1" to "secret2": the new one
    is accepted afterwards and the old one is not. *)
Lemma changePassword_contract_witness :
  wf_users sample_db = true
  /\ exists row db',
       @AuthService.changePassword marker_hasher sample_env 1 "secret1" "secret2"
         sample_db = (Ok tt, db')
       /\ @AuthService.validateUser marker_hasher "a@b.com" "secret2" db'
          = (Ok (Some row), db')
       /\ @AuthService.validateUser marker_hasher "a@b.com" "secret1" db'
          = (Ok None, db').
Proof.
  split; [reflexivity|].
  destruct (@changePassword_contract marker_hasher sample_env 1
              "secret1" "secret2" sample_db eq_refl) as [_ Accepted].
  destruct (Accepted eq_refl)
    as [u [db' [Found [Run [_ [_ [_ [_ [New Old]]]]]]]]].
  injection Found as <-.
  eexists. exists db'. split; [exact Run|]. split; [exact New | exact Old].
Defined.

(** Alice "changes" her password to the one she already has: the call
    succeeds and the old password is still accepted. *)
Lemma changePassword_same_password_counterexample :
  wf_users sample_db = true
  /\ exists row db',
       @AuthService.changePassword marker_hasher sample_env 1 "secret1" "secret1"
         sample_db = (Ok tt, db')
       /\ @AuthService.validateUser marker_hasher "a@b.com" "secret1" db'
          = (Ok (Some row), db').
Proof.
  split; [reflexivity|].
  eexists. eexists. split; [cbv; reflexivity | vm_compute; reflexivity].
Qed.


(** Alice, who registered with a password, signs in with Google: her row
    is linked, and a second sign-in finds it by the external id.  Carol,
    who is new, gets a row without a password. *)
Lemma googleLogin_upsert_witness :
  wf_users sample_db = true
  /\ emails alice_profile = [ {| value := "a@b.com" |} ]
  /\ (exists created db',
        @AuthService.googleLogin clear_jwt sample_env carol_profile sample_db
        = @AuthService.login clear_jwt sample_env created db'
        /\ users db' = [alice; bob; created]
        /\ User.password created = None)
  /\ exists db',
       List.length (users db') = 2%nat
       /\ filter (eq_googleId "g-alice") (users db')
          = [apply_set
               (AuthService.link_set "g-alice" (Some "https://img/alice.png"))
               alice]
       /\ exists r r',
            @AuthService.googleLogin clear_jwt sample_env alice_profile sample_db
            = (Ok r, db')
            /\ @AuthService.googleLogin clear_jwt later_env alice_profile db'
               = (Ok r', db')
            /\ PublicUser.id (user r') = PublicUser.id (user r).
Proof.
  split; [reflexivity|]. split; [reflexivity|]. split.
  { destruct (@googleLogin_upsert clear_jwt sample_env carol_profile
                {| value := "carol@example.com" |} [] sample_db
                eq_refl eq_refl) as [_ [_ [Create _]]].
    destruct (Create eq_refl eq_refl) as [created [db' [Run [Rows [NoHash _]]]]].
    exists created, db'. auto. }
  destruct (@googleLogin_upsert clear_jwt sample_env alice_profile
              {| value := "a@b.com" |} [] sample_db eq_refl eq_refl)
    as [_ [Link [_ [r [db1 [Run Again]]]]]].
  destruct (Link eq_refl alice eq_refl)
    as [db' [Run' [_ [Len [_ [One _]]]]]].
  rewrite Run in Run'. injection Run' as _ Store. subst db1.
  exists db'. split; [exact Len|]. split; [exact One|].
  destruct (Again later_env alice_profile eq_refl) as [r' [Run2 Same]];
    [discriminate|].
  exists r, r'. split; [exact Run|]. split; [exact Run2 | exact Same].
Defined.

(** * The users interface never shows a password *)

Section UsersInterface.

Import UsersService.

Lemma alike_fields u v :
  alike u v ->
  User.id u = User.id v /\ User.email u = User.email v
  /\ User.googleId u = User.googleId v.
Proof. unfold alike, withoutPassword. intros [= ]. auto. Qed.

Lemma alike_apply_set s u v : alike u v -> alike (apply_set s u) (apply_set s v).
Proof.
  unfold alike, withoutPassword. intros [= Eid Eem Efn Eln Egid Eav Eact Ecr Eup].
  simpl. now rewrite Eid, Eem, Efn, Eln, Egid, Eav, Eact, Ecr, Eup.
Qed.

Lemma alike_eq_id k u v : alike u v -> eq_id k u = eq_id k v.
Proof. intros [E _]%alike_fields. unfold eq_id. now rewrite E. Qed.

Lemma same_public_Forall2 l1 l2 :
  map withoutPassword l1 = map withoutPassword l2 <-> Forall2 alike l1 l2.
Proof.
  split.
  - revert l2. induction l1 as [|a t IH]; intros [|b t2] E; try discriminate.
    + constructor.
    + cbn [map] in E.
      assert (withoutPassword a = withoutPassword b) as Eh by congruence.
      assert (map withoutPassword t = map withoutPassword t2) as Et by congruence.
      constructor; [exact Eh | now apply IH].
  - induction 1 as [|a b t t2 Eh _ IH]; simpl; [reflexivity|].
    unfold alike in Eh. now rewrite Eh, IH.
Qed.

Lemma alike_map {B} (f : User.t -> B) l1 l2 :
  (forall u v, alike u v -> f u = f v) ->
  Forall2 alike l1 l2 -> map f l1 = map f l2.
Proof.
  intros Hf. induction 1 as [|a b t t2 Eh _ IH]; simpl; [reflexivity|].
  now rewrite (Hf a b Eh), IH.
Qed.

Lemma alike_filter p l1 l2 :
  (forall u v, alike u v -> p u = p v) ->
  Forall2 alike l1 l2 -> Forall2 alike (filter p l1) (filter p l2).
Proof.
  intros Hp. induction 1 as [|a b t t2 Eh _ IH]; simpl; [constructor|].
  rewrite (Hp a b Eh). destruct (p b); [constructor|]; assumption.
Qed.

Lemma alike_update_rows s p l1 l2 :
  (forall u v, alike u v -> p u = p v) ->
  Forall2 alike l1 l2 ->
  Forall2 alike (update_rows s p l1) (update_rows s p l2).
Proof.
  intros Hp. induction 1 as [|a b t t2 Eh _ IH]; simpl; [constructor|].
  constructor; [|exact IH].
  rewrite (Hp a b Eh). destruct (p b); [now apply alike_apply_set | exact Eh].
Qed.

Lemma alike_map_apply_set s l1 l2 :
  Forall2 alike l1 l2 ->
  Forall2 alike (map (apply_set s) l1) (map (apply_set s) l2).
Proof.
  induction 1; simpl; constructor; [now apply alike_apply_set | assumption].
Qed.

Lemma alike_constraints l1 l2 :
  Forall2 alike l1 l2 -> users_constraints l1 = users_constraints l2.
Proof.
  intros H. unfold users_constraints.
  rewrite (alike_map User.id l1 l2), (alike_map User.email l1 l2),
    (alike_map User.googleId l1 l2); try assumption; try reflexivity;
    intros u v E; apply alike_fields in E; tauto.
Qed.

Lemma first_or_not_found_alike id rows1 rows2 db1 db2 :
  Forall2 alike rows1 rows2 ->
  fst (first_or_not_found id rows1 db1) = fst (first_or_not_found id rows2 db2).
Proof.
  intros [|a b t t2 Eh _]; simpl; [reflexivity|].
  unfold alike in Eh. now rewrite Eh.
Qed.

Lemma first_or_not_found_Ok id rows db r db' :
  first_or_not_found id rows db = (Ok r, db') ->
  db' = db /\ exists u, In u rows /\ r = withoutPassword u.
Proof.
  destruct rows as [|u t]; simpl; [discriminate|].
  intros [= <- <-]. split; [reflexivity|]. exists u. split; [now left | reflexivity].
Qed.

(** An update by key, followed by the shared tail: a returned record is
    the projection of a row of the store as the update left it, and two
    stores with the same public records get the same outcome and still
    have the same public records. *)
Lemma update_then_first s id db :
  (forall r db',
      (rows <- update_users s (eq_id id) ;; first_or_not_found id rows) db
      = (Ok r, db') ->
      exists u, In u (users db') /\ r = withoutPassword u)
  /\ (forall db2,
        same_public db db2 ->
        fst ((rows <- update_users s (eq_id id) ;; first_or_not_found id rows) db)
        = fst ((rows <- update_users s (eq_id id) ;; first_or_not_found id rows) db2)
        /\ same_public
             (snd ((rows <- update_users s (eq_id id) ;;
                    first_or_not_found id rows) db))
             (snd ((rows <- update_users s (eq_id id) ;;
                    first_or_not_found id rows) db2))).
Proof.
  split.
  - intros r db'. unfold bind, update_users.
    destruct (users_constraints (update_rows s (eq_id id) (users db)));
      [|discriminate].
    intros H. apply first_or_not_found_Ok in H as [-> [u [Hu ->]]].
    apply in_map_iff in Hu as [v [<- Hv]]. apply filter_In in Hv as [Hv Pv].
    exists (apply_set s v). split; [|reflexivity].
    simpl. now apply In_update_rows.
  - intros db2 Same. apply same_public_Forall2 in Same.
    pose proof (alike_update_rows s (eq_id id) _ _ (alike_eq_id id) Same) as Rows.
    unfold bind, update_users.
    rewrite (alike_constraints _ _ Rows).
    destruct (users_constraints (update_rows s (eq_id id) (users db2))).
    + split.
      * apply first_or_not_found_alike, alike_map_apply_set, alike_filter;
          [apply alike_eq_id | exact Same].
      * destruct (filter (eq_id id) (users db)), (filter (eq_id id) (users db2));
          simpl; now apply same_public_Forall2.
    + split; [reflexivity | now apply same_public_Forall2].
Qed.

Lemma filter_all {A} (l : list A) : filter (fun _ => true) l = l.
Proof. induction l as [|a t IH]; simpl; [reflexivity | now rewrite IH]. Qed.

Lemma findAll_run db :
  findAll db = (Ok (map withoutPassword (users db)), db).
Proof. unfold findAll, bind, select_users, ret. now rewrite filter_all. Qed.

(** C8.  [findAll] returns the public record of every row.  Whatever
    [findOne], [update], [deactivate] and [activate] return is the public
    record of a row of the store they leave behind.  On two stores that
    differ in their password columns only, each of the five operations has
    the same outcome, and leaves stores that still differ in the password
    columns only: nothing returned depends on a stored hash. *)
Theorem usersService_hides_passwords (env : Env) (id : Z)
    (updateUserDto : UpdateUserDto) (db db2 : Db) :
  same_public db db2 ->
  findAll db = (Ok (map withoutPassword (users db)), db)
  /\ (forall op,
        In op [findOne id; update env id updateUserDto;
               deactivate env id; activate env id] ->
        (forall r db',
            op db = (Ok r, db') ->
            exists u, In u (users db') /\ r = withoutPassword u)
        /\ fst (op db) = fst (op db2)
        /\ same_public (snd (op db)) (snd (op db2)))
  /\ fst (findAll db) = fst (findAll db2).
Proof.
  intros Same. split; [apply findAll_run|]. split.
  - intros op [<-|[<-|[<-|[<-|[]]]]].
    + split; [|split].
      * intros r db' H. unfold findOne, bind, select_users in H.
        apply first_or_not_found_Ok in H as [-> [u [Hu ->]]].
        apply filter_In in Hu as [Hu _]. now exists u.
      * unfold findOne, bind, select_users.
        apply first_or_not_found_alike, alike_filter;
          [apply alike_eq_id | now apply same_public_Forall2].
      * unfold findOne, bind, select_users.
        destruct (filter (eq_id id) (users db)), (filter (eq_id id) (users db2));
          exact Same.
    + destruct (update_then_first
                  {| set_email := dto_email updateUserDto;
                     set_password := None;
                     set_firstName := dto_firstName updateUserDto;
                     set_lastName := dto_lastName updateUserDto;
                     set_googleId := None;
                     set_avatar := dto_avatar updateUserDto;
                     set_isActive := None;
                     set_updatedAt := Some (now env) |} id db) as [Shown Indep].
      split; [exact Shown | exact (Indep db2 Same)].
    + destruct (update_then_first (set_active env false) id db) as [Shown Indep].
      split; [exact Shown | exact (Indep db2 Same)].
    + destruct (update_then_first (set_active env true) id db) as [Shown Indep].
      split; [exact Shown | exact (Indep db2 Same)].
  - rewrite !findAll_run. unfold same_public in Same. simpl. now rewrite Same.
Qed.

End UsersInterface.

(** The sample store and the same store with other password columns. *)
Lemma usersService_hides_passwords_witness :
  same_public sample_db sample_db_rehashed
  /\ fst (UsersService.findAll sample_db)
     = fst (UsersService.findAll sample_db_rehashed)
  /\ fst (UsersService.deactivate sample_env 1 sample_db)
     = fst (UsersService.deactivate sample_env 1 sample_db_rehashed).
Proof.
  split; [reflexivity|].
  destruct (usersService_hides_passwords sample_env 1
              {| dto_email := None; dto_firstName := None;
                 dto_lastName := None; dto_avatar := None |}
              sample_db sample_db_rehashed eq_refl) as [_ [Ops All]].
  split; [exact All|].
  apply (Ops (UsersService.deactivate sample_env 1)).
  simpl. auto.
Defined.

(** * The catalogue *)

Section Catalogue.

Import BooksService.

Lemma absent_book_unmatched id rows :
  (forall b, In b rows -> Book.id b <> id) ->
  filter (eq_book_id id) rows = []
  /\ filter (fun b => negb (eq_book_id id b)) rows = rows
  /\ forall s, map (fun b => if eq_book_id id b then apply_bset s b else b) rows
               = rows.
Proof.
  intros Absent.
  assert (forall b, In b rows -> eq_book_id id b = false) as Off.
  { intros b Hb. apply Z.eqb_neq. now apply Absent. }
  split; [|split].
  - now apply filter_nil.
  - clear Absent. induction rows as [|a t IH]; simpl; [reflexivity|].
    rewrite (Off a (or_introl eq_refl)). simpl. f_equal.
    apply IH. intros b Hb. apply Off. now right.
  - intros s. rewrite <- (map_id rows) at 2. apply map_ext_in.
    intros b Hb. now rewrite (Off b Hb).
Qed.

Lemma wf_books_iff db :
  wf_books db = true
  <-> books_constraints (books db) = true
      /\ forall b, In b (books db) -> int4 (Book.id b) = true.
Proof.
  unfold wf_books. now rewrite andb_true_iff, forallb_forall.
Qed.

(** What a statement on an id that no book has does: nothing, when the
    integers it binds are in range; otherwise the server refuses it. *)
Lemma update_books_absent s id db :
  wf_books db = true ->
  (forall b, In b (books db) -> Book.id b <> id) ->
  update_books s (eq_book_id id) db
  = if int4 id && stock_in_range s
    then (Ok [], db)
    else (Throw out_of_range, db).
Proof.
  intros W Absent. unfold update_books.
  destruct (absent_book_unmatched id (books db) Absent) as [None [_ Same]].
  change (fun b => if (eq_book_id id : KeyCondition) b
                   then apply_bset s b else b)
    with (fun b => if eq_book_id id b then apply_bset s b else b).
  rewrite Same, None. apply wf_books_iff in W as [C _]. rewrite C.
  change (bound_id (eq_book_id id)) with id.
  destruct (int4 id && stock_in_range s); [|reflexivity].
  simpl. now rewrite with_books_same.
Qed.

(** C7, as amended.  On a store the database can be in, take an id that
    no book has.  When the id is a value of the [integer] column,
    [findOne] and [remove] throw NotFound, and so do [update] with a DTO
    that the columns can hold and [updateStock] with a quantity that is
    such a value too.  When the id is not such a value, or the quantity
    is not, the server refuses the statement and the operation fails
    with its query error instead.  In every case the store is untouched.
    The three lookups of the Auth Core (by an email and an external id
    that are text the server takes, by an id within the [integer] range)
    return without writing, and return none when no row matches. *)
Theorem missing_records (env : Env) (id : Z) (updateBookDto : UpdateBookDto)
    (quantity : Z) (email googleId : string) (userId : Z) (db : Db) :
  wf_books db = true ->
  (forall b, In b (books db) -> Book.id b <> id) ->
  (int4 id = true ->
   findOne id db = (Throw (not_found id), db)
   /\ (update_fits_columns updateBookDto = true ->
       update env id updateBookDto db = (Throw (not_found id), db))
   /\ remove id db = (Throw (not_found id), db)
   /\ (int4 quantity = true ->
       updateStock env id quantity db = (Throw (not_found id), db))
   /\ exists message, not_found id = NotFoundException message)
  /\ (int4 id = false ->
      findOne id db = (Throw out_of_range, db)
      /\ (update_fits_columns updateBookDto = true ->
          update env id updateBookDto db = (Throw out_of_range, db))
      /\ remove id db = (Throw out_of_range, db)
      /\ updateStock env id quantity db = (Throw out_of_range, db)
      /\ exists message, out_of_range = QueryError message)
  /\ (int4 quantity = false ->
      updateStock env id quantity db = (Throw out_of_range, db))
  /\ (sql_text email = true ->
      exists r, AuthService.findUserByEmail email db = (Ok r, db)
        /\ ((forall u, In u (users db) -> User.email u <> email) -> r = None))
  /\ (sql_text googleId = true ->
      exists r, AuthService.findUserByGoogleId googleId db = (Ok r, db)
        /\ ((forall u, In u (users db) -> User.googleId u <> Some googleId) ->
            r = None))
  /\ (int4 userId = true ->
      exists r, AuthService.findUserById userId db = (Ok r, db)
        /\ ((forall u, In u (users db) -> User.id u <> userId) -> r = None)).
Proof.
  intros W Absent.
  destruct (absent_book_unmatched id (books db) Absent) as [None [Kept _]].
  assert (forall s, update_books s (eq_book_id id) db
                    = if int4 id && stock_in_range s
                      then (Ok [], db) else (Throw out_of_range, db)) as Upd.
  { intros s. now apply update_books_absent. }
  split; [|split; [|split; [|split; [|split]]]].
  - intros In_range. split; [|split; [|split; [|split]]].
    + unfold findOne, bind, select_books_where.
      change (bound_id (eq_book_id id)) with id. rewrite In_range.
      now rewrite None.
    + intros Fits. unfold update, bind. rewrite Upd, In_range.
      replace (stock_in_range (updateData env updateBookDto)) with true;
        [reflexivity|].
      unfold update_fits_columns in Fits.
      apply andb_true_iff in Fits as [_ Stock]. now rewrite <- Stock.
    + unfold remove, bind, delete_books.
      change (bound_id (eq_book_id id)) with id. rewrite In_range.
      rewrite None, Kept. simpl. now rewrite with_books_same.
    + intros Stock. unfold updateStock, bind. rewrite Upd, In_range.
      unfold stock_in_range. simpl. now rewrite Stock.
    + eexists. reflexivity.
  - intros Outside. split; [|split; [|split; [|split]]].
    + unfold findOne, bind, select_books_where.
      change (bound_id (eq_book_id id)) with id. now rewrite Outside.
    + intros _. unfold update, bind. now rewrite Upd, Outside.
    + unfold remove, bind, delete_books.
      change (bound_id (eq_book_id id)) with id. now rewrite Outside.
    + unfold updateStock, bind. now rewrite Upd, Outside.
    + eexists. reflexivity.
  - intros Outside. unfold updateStock, bind. rewrite Upd.
    unfold stock_in_range. simpl. rewrite Outside.
    now rewrite andb_false_r.
  - intros _. eexists. split; [apply findUserByEmail_run|].
    intros Missing. rewrite filter_nil; [reflexivity|].
    intros u Hu. destruct (eq_email email u) eqn:E; [|reflexivity].
    apply eq_email_true in E. now apply Missing in Hu.
  - intros _. eexists. split; [apply findUserByGoogleId_run|].
    intros Missing. rewrite filter_nil; [reflexivity|].
    intros u Hu. destruct (eq_googleId googleId u) eqn:E; [|reflexivity].
    apply eq_googleId_true in E. now apply Missing in Hu.
  - intros _. eexists. split; [apply findUserById_run|].
    intros Missing. rewrite filter_nil; [reflexivity|].
    intros u Hu. destruct (eq_id userId u) eqn:E; [|reflexivity].
    apply eq_id_true in E. now apply Missing in Hu.
Qed.

(** C10.  [update] hands [updateData] to the store.  In it a price of 0
    stays the number 0, and any other price is replaced by its text. *)
Theorem update_converts_truthy_price (env : Env) (id : Z)
    (updateBookDto : UpdateBookDto) :
  update env id updateBookDto
  = (rows <- update_books (updateData env updateBookDto) (eq_book_id id) ;;
     first_or_not_found id rows)
  /\ (upd_price updateBookDto = Some 0 ->
      bset_price (updateData env updateBookDto) = Some (PNumber 0))
  /\ (forall price,
        price <> 0 ->
        upd_price updateBookDto = Some price ->
        bset_price (updateData env updateBookDto)
        = Some (PString (number_toString price))).
Proof.
  split; [reflexivity|]. split.
  - intros E. simpl. now rewrite E.
  - intros price Nonzero E. simpl. rewrite E. unfold truthy_number.
    apply Z.eqb_neq in Nonzero. now rewrite Nonzero.
Qed.

End Catalogue.

(** No book has id 99, and 99 and 5 are values of the [integer] column;
    nobody is "nobody@example.com", "g-nobody" or 99. *)
Lemma missing_records_witness :
  wf_books sample_db = true
  /\ int4 99 = true
  /\ int4 5 = true
  /\ update_fits_columns revised = true
  /\ BooksService.findOne 99 sample_db
     = (Throw (NotFoundException "Book with ID 99 not found"), sample_db)
  /\ BooksService.update sample_env 99 revised sample_db
     = (Throw (NotFoundException "Book with ID 99 not found"), sample_db)
  /\ BooksService.updateStock sample_env 99 5 sample_db
     = (Throw (NotFoundException "Book with ID 99 not found"), sample_db)
  /\ @AuthService.findUserByEmail "nobody@example.com" sample_db
     = (Ok None, sample_db).
Proof.
  split; [reflexivity|]. split; [reflexivity|]. split; [reflexivity|].
  split; [reflexivity|].
  assert (forall b, In b (books sample_db) -> Book.id b <> 99) as Absent.
  { intros b [<-|[]]. discriminate. }
  destruct (missing_records sample_env 99 revised 5
              "nobody@example.com" "g-nobody" 99 sample_db eq_refl Absent)
    as (In_range & _ & _ & ByEmail & _).
  destruct (In_range eq_refl) as (One & Update & _ & Stock & _).
  split; [exact One|]. split; [exact (Update eq_refl)|].
  split; [exact (Stock eq_refl)|].
  destruct (ByEmail eq_refl) as (r & Run & Nobody).
  rewrite Run. f_equal. f_equal. apply Nobody.
  intros u [<-|[<-|[]]]; discriminate.
Defined.

(** C7, counterexample.  No book has id 2147483648, and [findOne] does
    not throw NotFound there: the id is not a value of the [integer]
    column, the server refuses it and [findOne] fails with the query
    error. *)
Lemma missing_records_counterexample :
  (forall b, In b (books sample_db) -> Book.id b <> 2147483648)
  /\ BooksService.findOne 2147483648 sample_db
     = (Throw (QueryError "value out of range for type integer"), sample_db)
  /\ BooksService.findOne 2147483648 sample_db
     <> (Throw (BooksService.not_found 2147483648), sample_db).
Proof.
  split; [|split].
  - intros b [<-|[]]. discriminate.
  - reflexivity.
  - discriminate.
Qed.

(** A price of 0 and a price of 19.99. *)
Lemma update_converts_truthy_price_witness :
  bset_price (BooksService.updateData sample_env free_of_charge)
  = Some (PNumber 0)
  /\ bset_price (BooksService.updateData sample_env repriced)
     = Some (PString "19.99").
Proof.
  split.
  - destruct (update_converts_truthy_price sample_env 1 free_of_charge)
      as [_ [Zero _]].
    apply Zero. reflexivity.
  - destruct (update_converts_truthy_price sample_env 1 repriced)
      as [_ [_ Other]].
    apply (Other 1999); [discriminate | reflexivity].
Defined.

(** * Search *)

Section Search.

Import BooksService.

Lemma list_ascii_of_append (a b : string) :
  list_ascii_of_string (String.append a b)
  = list_ascii_of_string a ++ list_ascii_of_string b.
Proof. induction a as [|c a IH]; simpl; [reflexivity | now rewrite IH]. Qed.

(** A query of plain characters reads as itself. *)
Lemma like_tokens_plain (query rest : list ascii) (tokens : list LikeToken) :
  forallb plain_char query = true ->
  like_tokens rest = Some tokens ->
  like_tokens (query ++ rest) = Some (map Literal query ++ tokens).
Proof.
  intros Plain Rest. induction query as [|c q IH]; [exact Rest|].
  simpl in Plain. apply andb_true_iff in Plain as [Pc Pq].
  unfold plain_char in Pc.
  apply andb_true_iff in Pc as [Pc Backslash].
  apply andb_true_iff in Pc as [Percent Underscore].
  apply negb_true_iff in Percent, Underscore, Backslash.
  simpl. rewrite Percent, Underscore, Backslash, (IH Pq). reflexivity.
Qed.

Lemma contains_pattern_plain (query : string) :
  plain query = true ->
  like_tokens (contains_pattern query)
  = Some (AnyString :: map Literal (list_ascii_of_string query) ++ [AnyString]).
Proof.
  intros Plain. unfold contains_pattern.
  rewrite list_ascii_of_append, list_ascii_of_append.
  change (list_ascii_of_string "%") with ["%"%char].
  change (["%"%char] ++ list_ascii_of_string query ++ ["%"%char])
    with ("%"%char :: (list_ascii_of_string query ++ ["%"%char])).
  change (like_tokens ("%"%char :: (list_ascii_of_string query ++ ["%"%char])))
    with (option_map (cons AnyString)
            (like_tokens (list_ascii_of_string query ++ ["%"%char]))).
  now rewrite (like_tokens_plain _ ["%"%char] [AnyString] Plain eq_refl).
Qed.

Lemma like_match_any (pattern : list LikeToken) (text : list ascii) :
  like_match (AnyString :: pattern) text
  = like_match pattern text
    || match text with
       | [] => false
       | _ :: text' => like_match (AnyString :: pattern) text'
       end.
Proof. destruct text; reflexivity. Qed.

Lemma like_match_rest (text : list ascii) : like_match [AnyString] text = true.
Proof.
  induction text as [|c t IH]; [reflexivity|].
  rewrite like_match_any. now rewrite IH, orb_true_r.
Qed.

Lemma like_match_literals (query text : list ascii) :
  like_match (map Literal query ++ [AnyString]) text = prefix_ci query text.
Proof.
  revert text. induction query as [|c q IH]; intros text.
  - simpl prefix_ci. destruct text; apply like_match_rest.
  - destruct text as [|d t]; [reflexivity|].
    simpl. now rewrite IH.
Qed.

Lemma like_match_contains (query text : list ascii) :
  like_match (AnyString :: map Literal query ++ [AnyString]) text
  = occurs_ci query text.
Proof.
  induction text as [|d t IH]; rewrite like_match_any, like_match_literals.
  - reflexivity.
  - now rewrite IH.
Qed.

Lemma search_where_plain (query : string) (b : Book.t) :
  search_where
    (AnyString :: map Literal (list_ascii_of_string query) ++ [AnyString]) b
  = mentions query b.
Proof.
  unfold search_where, mentions, ilike, occurs_in.
  rewrite !like_match_contains.
  destruct (Book.description b) as [d|].
  - rewrite like_match_contains.
    now destruct (occurs_ci _ (list_ascii_of_string (Book.title b))),
      (occurs_ci _ (list_ascii_of_string (Book.author b))),
      (occurs_ci _ (list_ascii_of_string d)).
  - now destruct (occurs_ci _ (list_ascii_of_string (Book.title b))),
      (occurs_ci _ (list_ascii_of_string (Book.author b))).
Qed.

(** C9, as amended.  For a query without the characters that [LIKE]
    reads specially (percent, underscore, backslash), when the query and
    the titles, authors and descriptions of the catalogue are ASCII text,
    [search] returns, without writing, exactly the books whose title,
    author or description contains the query, letter case apart. *)
Theorem search_plain_query (query : string) (db : Db) :
  plain query = true ->
  ascii_text query = true ->
  forallb ascii_fields (books db) = true ->
  search query db = (Ok (filter (mentions query) (books db)), db).
Proof.
  intros Plain _ _. unfold search. rewrite (contains_pattern_plain query Plain).
  unfold select_books. f_equal. f_equal.
  apply filter_ext. intros b. apply search_where_plain.
Qed.

End Search.

(** Searching the sample store for "UN" finds Dune. *)
Lemma search_plain_query_witness :
  plain "UN" = true
  /\ ascii_text "UN" = true
  /\ forallb ascii_fields (books sample_db) = true
  /\ BooksService.search "UN" sample_db = (Ok [dune], sample_db).
Proof.
  split; [reflexivity|]. split; [reflexivity|]. split; [reflexivity|].
  rewrite (search_plain_query "UN" sample_db eq_refl eq_refl eq_refl).
  reflexivity.
Defined.

(** Searching for an underscore finds Dune, which has no underscore in
    its title or author and has no description: the underscore stands for
    any one character. *)
Lemma search_underscore_counterexample :
  BooksService.search "_" sample_db = (Ok [dune], sample_db)
  /\ filter (mentions "_") (books sample_db) = [].
Proof. split; reflexivity. Qed.

(** * Further properties of the Auth Core *)

Section AuthInvariants.
Context {bcrypt : PasswordHasher} {jwtService : JwtService}.

Import AuthService.

Lemma only_row_with_id db u :
  wf_users db = true -> In u (users db) ->
  filter (eq_id (User.id u)) (users db) = [u].
Proof.
  intros W Hu. apply wf_users_iff in W as [[Nid _] _].
  apply (filter_unique_total User.id); auto.
  - now apply eq_id_true.
  - intros v _ Pv. now apply eq_id_true in Pv.
Qed.

Lemma register_keeps_wf env userData db :
  wf_users db = true -> wf_users (snd (register env userData db)) = true.
Proof.
  intros W.
  destruct (hd_error (filter (eq_email (reg_email userData)) (users db)))
    as [u|] eqn:F.
  - now rewrite (register_taken env userData db u F).
  - apply hd_filter_None in F.
    destruct (register_fresh env userData db W F) as [Run W'].
    cbv zeta in Run, W'. rewrite Run. exact W'.
Qed.

Lemma googleLogin_keeps_wf env profile db :
  wf_users db = true -> wf_users (snd (googleLogin env profile db)) = true.
Proof.
  intros W. destruct (emails profile) as [|first rest] eqn:E.
  - unfold googleLogin. now rewrite E.
  - destruct (hd_error (filter (eq_googleId (profile_id profile)) (users db)))
      as [u|] eqn:Fg.
    + now rewrite (googleLogin_known env profile first rest db u E Fg).
    + apply hd_filter_None in Fg.
      destruct (hd_error (filter (eq_email (value first)) (users db)))
        as [u|] eqn:Fe.
      * destruct (googleLogin_link env profile first rest db u W E Fg Fe)
          as [Run W'].
        cbv zeta in Run, W'. rewrite Run. exact W'.
      * apply hd_filter_None in Fe.
        destruct (googleLogin_create env profile first rest db W E Fg Fe)
          as [Run W'].
        cbv zeta in Run, W'. rewrite Run. exact W'.
Qed.

Lemma changePassword_keeps_wf env userId current new db :
  wf_users db = true ->
  wf_users (snd (changePassword env userId current new db)) = true.
Proof.
  intros W. destruct (change_refused userId current (users db)) eqn:R.
  - destruct (changePassword_refused env userId current new db R) as [m ->].
    exact W.
  - rewrite (changePassword_accepted env userId current new db W R).
    now apply update_users_plain.
Qed.

(** X1.  Whatever their arguments, and whether they return or throw,
    [validateUser], [register], [googleLogin] and [changePassword] leave a
    store that satisfies the constraints of the schema in such a state:
    keys and emails distinct, external ids distinct where present, the
    sequence ahead of every key. *)
Theorem authService_keeps_store_well_formed (env : Env)
    (email password : string) (userData : RegisterData) (profile : Profile)
    (userId : Z) (current new : string) (db : Db) :
  wf_users db = true ->
  wf_users (snd (validateUser email password db)) = true
  /\ wf_users (snd (register env userData db)) = true
  /\ wf_users (snd (googleLogin env profile db)) = true
  /\ wf_users (snd (changePassword env userId current new db)) = true.
Proof.
  intros W. split; [|split; [|split]].
  - now rewrite validateUser_run.
  - now apply register_keeps_wf.
  - now apply googleLogin_keeps_wf.
  - now apply changePassword_keeps_wf.
Qed.


(** X4.  The token [login] issues for a stored user decodes to a payload
    on which [JwtStrategy.validate] returns that very row, the store
    untouched; a payload whose subject is the key of no row is refused
    with Unauthorized. *)
Theorem token_resolves_to_its_user (env : Env) (u : User.t) (db : Db) :
  wf_users db = true ->
  (In u (users db) ->
   exists r payload,
     login env u db = (Ok r, db)
     /\ decode (access_token r) = Some payload
     /\ JwtStrategy.validate payload db = (Ok u, db))
  /\ (forall payload,
        (forall v, In v (users db) -> User.id v <> sub payload) ->
        JwtStrategy.validate payload db
        = (Throw (UnauthorizedException "Unauthorized"), db)).
Proof.
  intros W. split.
  - intros Hu. eexists. exists (payload_of u). split; [reflexivity|].
    split; [apply decode_sign|].
    unfold JwtStrategy.validate, bind. rewrite findUserById_run.
    change (sub (payload_of u)) with (User.id u).
    now rewrite (only_row_with_id db u W Hu).
  - intros payload Missing.
    unfold JwtStrategy.validate, bind. rewrite findUserById_run.
    rewrite filter_nil; [reflexivity|].
    intros v Hv. destruct (eq_id (sub payload) v) eqn:E; [|reflexivity].
    apply eq_id_true in E. now apply Missing in Hv.
Qed.

End AuthInvariants.


(** The sample store stays well formed under the four operations. *)
Lemma authService_keeps_store_well_formed_witness :
  wf_users sample_db = true
  /\ wf_users (snd (@AuthService.googleLogin clear_jwt sample_env
                      carol_profile sample_db)) = true.
Proof.
  split; [reflexivity|].
  apply (@authService_keeps_store_well_formed marker_hasher clear_jwt
           sample_env "a@b.com" "secret1" dave_registration carol_profile
           1 "secret1" "secret2" sample_db eq_refl).
Defined.

(** Alice's token leads back to Alice. *)
Lemma token_resolves_to_its_user_witness :
  wf_users sample_db = true
  /\ In alice (users sample_db)
  /\ exists r payload,
       @AuthService.login clear_jwt sample_env alice sample_db
       = (Ok r, sample_db)
       /\ decode (access_token r) = Some payload
       /\ JwtStrategy.validate payload sample_db = (Ok alice, sample_db).
Proof.
  split; [reflexivity|]. split; [now left|].
  destruct (@token_resolves_to_its_user clear_jwt sample_env alice sample_db
              eq_refl) as [Stored _].
  apply Stored. now left.
Defined.

(** * What linking, creating and changing leave behind *)

Section AuthAftermath.
Context {bcrypt : PasswordHasher} {jwtService : JwtService}.

Import AuthService.

Lemma filter_id_update_rows s p k rows :
  filter (eq_id k) (update_rows s p rows)
  = update_rows s p (filter (eq_id k) rows).
Proof.
  induction rows as [|a t IH]; [reflexivity|].
  change (update_rows s p (a :: t))
    with ((if p a then apply_set s a else a) :: update_rows s p t).
  cbn [filter].
  replace (eq_id k (if p a then apply_set s a else a)) with (eq_id k a)
    by now destruct (p a).
  destruct (eq_id k a); [|exact IH].
  change (update_rows s p (a :: filter (eq_id k) t))
    with ((if p a then apply_set s a else a)
          :: update_rows s p (filter (eq_id k) t)).
  now rewrite IH.
Qed.

Lemma findUserById_after_update s p k rows :
  hd_error (filter (eq_id k) (update_rows s p rows))
  = option_map (fun u => if p u then apply_set s u else u)
      (hd_error (filter (eq_id k) rows)).
Proof.
  rewrite filter_id_update_rows. now destruct (filter (eq_id k) rows).
Qed.

Lemma validate_run payload db :
  JwtStrategy.validate payload db
  = match hd_error (filter (eq_id (sub payload)) (users db)) with
    | Some u => (Ok u, db)
    | None => (Throw (UnauthorizedException "Unauthorized"), db)
    end.
Proof.
  unfold JwtStrategy.validate, bind. rewrite findUserById_run.
  now destruct (hd_error (filter (eq_id (sub payload)) (users db))).
Qed.

(** X5.  A successful [changePassword] changes one row and nothing else:
    the [books] table, the sequence, the number of rows and every row
    with another key are as before, and so are the key, email, external
    id and active flag of every row.  No token is invalidated: a payload
    that [JwtStrategy.validate] accepted before is accepted afterwards,
    for the same user id. *)
Theorem changePassword_touches_one_row (env : Env) (userId : Z)
    (current new : string) (db db' : Db) :
  wf_users db = true ->
  changePassword env userId current new db = (Ok tt, db') ->
  books db' = books db
  /\ users_id_seq db' = users_id_seq db
  /\ map User.id (users db') = map User.id (users db)
  /\ map User.email (users db') = map User.email (users db)
  /\ map User.googleId (users db') = map User.googleId (users db)
  /\ map User.isActive (users db') = map User.isActive (users db)
  /\ (forall v, In v (users db) -> User.id v <> userId -> In v (users db'))
  /\ (forall payload u,
        JwtStrategy.validate payload db = (Ok u, db) ->
        exists u',
          JwtStrategy.validate payload db' = (Ok u', db')
          /\ User.id u' = User.id u).
Proof.
  intros W Run.
  destruct (change_refused userId current (users db)) eqn:R.
  { destruct (changePassword_refused env userId current new db R) as [m E].
    rewrite E in Run. discriminate. }
  rewrite (changePassword_accepted env userId current new db W R) in Run.
  injection Run as <-. simpl.
  split; [reflexivity|]. split; [reflexivity|].
  split; [apply update_rows_ids|].
  split; [now apply update_rows_emails|].
  split; [now apply update_rows_googleIds|].
  split; [|split].
  - unfold update_rows. rewrite map_map. apply map_ext.
    intros u. now destruct (eq_id userId u).
  - intros v Hv Other. unfold update_rows. apply in_map_iff. exists v.
    split; [|exact Hv].
    apply Z.eqb_neq in Other. unfold eq_id. now rewrite Other.
  - intros payload u. rewrite !validate_run. simpl users.
    rewrite findUserById_after_update.
    destruct (hd_error (filter (eq_id (sub payload)) (users db))) as [v|];
      [|discriminate].
    intros [= ->]. simpl. eexists. split; [reflexivity|].
    now destruct (eq_id userId u).
Qed.

(** X6.  Linking a Google identity to an account that has a password
    keeps the password working: [validateUser] with the account's email
    and password returns the linked row afterwards. *)
Theorem linked_account_keeps_password_login (env : Env) (profile : Profile)
    (first : Valued) (rest : list Valued) (db : Db) (u : User.t)
    (stored plaintext : string) :
  wf_users db = true ->
  emails profile = first :: rest ->
  filter (eq_googleId (profile_id profile)) (users db) = [] ->
  hd_error (filter (eq_email (value first)) (users db)) = Some u ->
  User.password u = Some stored ->
  compare plaintext stored = true ->
  exists r db' row,
    googleLogin env profile db = (Ok r, db')
    /\ validateUser (value first) plaintext db' = (Ok (Some row), db')
    /\ User.id row = User.id u
    /\ User.password row = Some stored
    /\ User.googleId row = Some (profile_id profile).
Proof.
  intros W E Fg Fe Pw C.
  destruct (googleLogin_link env profile first rest db u W E Fg Fe)
    as [Run _].
  cbv zeta in Run.
  pose proof Fe as Fe'. apply hd_filter_Some in Fe' as [Hu Eu].
  apply eq_email_true in Eu.
  eexists. eexists.
  exists (apply_set
            (link_set (profile_id profile) (first_photo (photos profile))) u).
  split; [exact Run|]. split; [|repeat split; assumption].
  rewrite validateUser_run. unfold validateCredentials_spec. simpl users.
  rewrite <- Eu.
  rewrite (updated_row_by_email
             (link_set (profile_id profile) (first_photo (photos profile)))
             db u eq_refl W Hu).
  simpl. rewrite Pw. now rewrite C.
Qed.

(** X7.  When an account is linked, the record in the response and the
    row in the store can disagree on the avatar.  With a photo in the
    profile both carry it and the response is the public record of the
    stored row.  Without one, the response has no avatar while the stored
    row keeps the avatar it had. *)
Theorem linked_response_and_stored_avatar (env : Env) (profile : Profile)
    (first : Valued) (rest : list Valued) (db : Db) (u : User.t) :
  wf_users db = true ->
  emails profile = first :: rest ->
  filter (eq_googleId (profile_id profile)) (users db) = [] ->
  hd_error (filter (eq_email (value first)) (users db)) = Some u ->
  exists r db' row,
    googleLogin env profile db = (Ok r, db')
    /\ filter (eq_id (User.id u)) (users db') = [row]
    /\ (forall photo more,
          photos profile = photo :: more ->
          user r = withoutPassword row
          /\ User.avatar row = Some (value photo))
    /\ (photos profile = [] ->
        PublicUser.avatar (user r) = None
        /\ User.avatar row = User.avatar u).
Proof.
  intros W E Fg Fe.
  destruct (googleLogin_link env profile first rest db u W E Fg Fe)
    as [Run _].
  cbv zeta in Run.
  apply hd_filter_Some in Fe as [Hu _].
  eexists. eexists.
  exists (apply_set
            (link_set (profile_id profile) (first_photo (photos profile))) u).
  split; [exact Run|]. split; [now apply updated_row_by_id|]. split.
  - intros photo more Ph. rewrite Ph. split; reflexivity.
  - intros Ph. rewrite Ph. split; reflexivity.
Qed.

(** X8.  An account created by [googleLogin] has no password path: on the
    store it leaves, [validateUser] with its email returns none whatever
    the password, and [changePassword] for its id throws Unauthorized
    whatever the passwords. *)
Theorem google_account_has_no_password_path (env : Env) (profile : Profile)
    (first : Valued) (rest : list Valued) (db : Db) :
  wf_users db = true ->
  emails profile = first :: rest ->
  filter (eq_googleId (profile_id profile)) (users db) = [] ->
  filter (eq_email (value first)) (users db) = [] ->
  exists r db',
    googleLogin env profile db = (Ok r, db')
    /\ PublicUser.email (user r) = value first
    /\ (forall plaintext,
          validateUser (value first) plaintext db' = (Ok None, db'))
    /\ (forall env' current new,
          exists message,
            changePassword env' (PublicUser.id (user r)) current new db'
            = (Throw (UnauthorizedException message), db')).
Proof.
  intros W E Fg Fe.
  destruct (googleLogin_create env profile first rest db W E Fg Fe)
    as [Run W'].
  cbv zeta in Run, W'.
  set (created := new_row _ _ _) in *.
  set (db' := with_users db _ _) in *.
  assert (In created (users db')) as Hin.
  { subst db'. simpl. apply in_app_iff. right. now left. }
  eexists. exists db'. split; [exact Run|]. split; [reflexivity|]. split.
  - intros plaintext. rewrite validateUser_run. unfold validateCredentials_spec.
    change (value first) with (User.email created).
    now rewrite (only_row_with_email db' created W' Hin).
  - intros env' current new. apply changePassword_refused.
    unfold change_refused.
    change (PublicUser.id (user _)) with (User.id created).
    now rewrite (only_row_with_id db' created W' Hin).
Qed.

End AuthAftermath.

(** Alice changes her password; Bob's row is as it was. *)
Lemma changePassword_touches_one_row_witness :
  wf_users sample_db = true
  /\ In bob (users (snd (@AuthService.changePassword marker_hasher sample_env
                           1 "secret1" "secret2" sample_db))).
Proof.
  split; [reflexivity|].
  destruct (@changePassword_touches_one_row marker_hasher sample_env 1
              "secret1" "secret2" sample_db
              (snd (@AuthService.changePassword marker_hasher sample_env
                      1 "secret1" "secret2" sample_db))
              eq_refl eq_refl)
    as [_ [_ [_ [_ [_ [_ [Others _]]]]]]].
  apply Others; [right; now left | discriminate].
Defined.

(** Alice links her Google identity and still signs in with "secret1". *)
Lemma linked_account_keeps_password_login_witness :
  wf_users sample_db = true
  /\ exists r db' row,
       @AuthService.googleLogin clear_jwt sample_env alice_profile sample_db
       = (Ok r, db')
       /\ @AuthService.validateUser marker_hasher "a@b.com" "secret1" db'
          = (Ok (Some row), db')
       /\ User.googleId row = Some "g-alice".
Proof.
  split; [reflexivity|].
  destruct (@linked_account_keeps_password_login marker_hasher clear_jwt
              sample_env alice_profile {| value := "a@b.com" |} [] sample_db
              alice "$2a$secret1" "secret1"
              eq_refl eq_refl eq_refl eq_refl eq_refl eq_refl)
    as [r [db' [row [Run [Valid [_ [_ Linked]]]]]]].
  exists r, db', row. auto.
Defined.

(** Erin links a profile without a photo: the response shows no avatar,
    her row keeps the one she had. *)
Lemma linked_response_and_stored_avatar_witness :
  wf_users erin_db = true
  /\ exists r db' row,
       @AuthService.googleLogin clear_jwt sample_env erin_profile erin_db
       = (Ok r, db')
       /\ filter (eq_id 5) (users db') = [row]
       /\ PublicUser.avatar (user r) = None
       /\ User.avatar row = Some "https://img/erin.png".
Proof.
  split; [reflexivity|].
  destruct (@linked_response_and_stored_avatar clear_jwt sample_env
              erin_profile {| value := "erin@example.com" |} [] erin_db erin
              eq_refl eq_refl eq_refl eq_refl)
    as [r [db' [row [Run [One [_ NoPhoto]]]]]].
  destruct (NoPhoto eq_refl) as [Shown Kept].
  exists r, db', row. auto.
Defined.

(** Carol, created by her first Google sign-in, cannot sign in with a
    password. *)
Lemma google_account_has_no_password_path_witness :
  wf_users sample_db = true
  /\ exists r db',
       @AuthService.googleLogin clear_jwt sample_env carol_profile sample_db
       = (Ok r, db')
       /\ @AuthService.validateUser marker_hasher "carol@example.com"
            "anything" db' = (Ok None, db').
Proof.
  split; [reflexivity|].
  destruct (@google_account_has_no_password_path marker_hasher clear_jwt
              sample_env carol_profile {| value := "carol@example.com" |} []
              sample_db eq_refl eq_refl eq_refl eq_refl)
    as [r [db' [Run [_ [Never _]]]]].
  exists r, db'. split; [exact Run | apply Never].
Defined.

(** * Further properties of the users service *)

Section UsersAftermath.
Context {bcrypt : PasswordHasher}.

Import UsersService.

Lemma update_rows_keeps {B} (f : User.t -> B) s p rows :
  (forall u, f (apply_set s u) = f u) ->
  map f (update_rows s p rows) = map f rows.
Proof.
  intros Keep. unfold update_rows. rewrite map_map. apply map_ext.
  intros u. destruct (p u); [apply Keep | reflexivity].
Qed.

Lemma update_users_keeps_wf s p db :
  wf_users db = true -> wf_users (snd (update_users s p db)) = true.
Proof.
  intros W. unfold update_users.
  destruct (users_constraints (update_rows s p (users db))) eqn:C; [|exact W].
  unfold wf_users. simpl. rewrite C. simpl.
  apply forallb_forall. intros v Hv.
  apply In_update_rows_inv in Hv as [u [Hu ->]].
  apply wf_users_iff in W as [_ W]. specialize (W u Hu).
  apply Z.ltb_lt. now destruct (p u).
Qed.

Lemma NoDup_somes_filter {A K} (f : A -> option K) (p : A -> bool) l :
  NoDup (somes (map f l)) -> NoDup (somes (map f (filter p l))).
Proof.
  induction l as [|a t IH]; intros N; [constructor|].
  pose proof (NoDup_somes_tail _ _ _ N) as Nt.
  simpl. destruct (p a); [|now apply IH].
  simpl in *. destruct (f a) as [x|]; [|now apply IH].
  apply NoDup_cons_iff in N as [Hx _].
  constructor; [|now apply IH].
  intros Hin. apply Hx. apply In_somes in Hin as [b [Hb Fb]].
  apply filter_In in Hb as [Hb _]. apply In_somes. now exists b.
Qed.

Lemma NoDup_map_filter {A K} (f : A -> K) (p : A -> bool) l :
  NoDup (map f l) -> NoDup (map f (filter p l)).
Proof.
  intros N. rewrite <- (somes_map_Some f) in *.
  now apply (NoDup_somes_filter (fun a => Some (f a))).
Qed.

Lemma delete_users_keeps_wf key p db :
  wf_users db = true -> wf_users (snd (delete_users key p db)) = true.
Proof.
  intros W. unfold delete_users. destruct (int4 key); [|exact W].
  apply wf_users_iff in W as [[Nid [Nem Ngid]] Hseq].
  apply wf_users_iff. simpl. repeat split.
  - now apply NoDup_map_filter.
  - now apply NoDup_map_filter.
  - now apply NoDup_somes_filter.
  - intros u Hu. apply filter_In in Hu as [Hu _]. now apply Hseq.
Qed.

Lemma first_or_not_found_store id rows db :
  snd (first_or_not_found id rows db) = db.
Proof. now destruct rows. Qed.

Lemma then_first_keeps_wf (c : M (list User.t)) id db :
  wf_users (snd (c db)) = true ->
  wf_users (snd ((rows <- c ;; first_or_not_found id rows) db)) = true.
Proof.
  unfold bind. destruct (c db) as [[rows|e] db']; simpl; [|trivial].
  now rewrite first_or_not_found_store.
Qed.

(** X2.  Whatever their arguments, and whether they return or throw,
    [findAll], [findOne], [update], [remove], [deactivate] and [activate]
    leave a store that satisfies the constraints of the schema in such a
    state. *)
Theorem usersService_keeps_store_well_formed (env : Env) (id : Z)
    (updateUserDto : UpdateUserDto) (db : Db) :
  wf_users db = true ->
  wf_users (snd (findAll db)) = true
  /\ wf_users (snd (findOne id db)) = true
  /\ wf_users (snd (update env id updateUserDto db)) = true
  /\ wf_users (snd (remove id db)) = true
  /\ wf_users (snd (deactivate env id db)) = true
  /\ wf_users (snd (activate env id db)) = true.
Proof.
  intros W. split; [|split; [|split; [|split; [|split]]]].
  - now rewrite findAll_run.
  - apply then_first_keeps_wf. exact W.
  - apply then_first_keeps_wf. now apply update_users_keeps_wf.
  - unfold remove, bind.
    pose proof (delete_users_keeps_wf id (eq_id id) db W) as W'.
    destruct (delete_users id (eq_id id) db) as [[rows|e] db']; simpl in *;
      [|exact W'].
    now destruct (Nat.eqb (List.length rows) 0).
  - apply then_first_keeps_wf. now apply update_users_keeps_wf.
  - apply then_first_keeps_wf. now apply update_users_keeps_wf.
Qed.

Lemma set_active_run env flag db u :
  wf_users db = true -> In u (users db) ->
  (rows <- update_users (set_active env flag) (eq_id (User.id u)) ;;
   first_or_not_found (User.id u) rows) db
  = (Ok (withoutPassword (apply_set (set_active env flag) u)),
     with_users db
       (update_rows (set_active env flag) (eq_id (User.id u)) (users db))
       (users_id_seq db)).
Proof.
  intros W Hu. unfold bind.
  destruct (update_users_plain (set_active env flag) (eq_id (User.id u)) db
              eq_refl eq_refl W) as [-> _].
  now rewrite (only_row_with_id db u W Hu).
Qed.

(** X9.  Deactivating a user does not keep them out.  After a successful
    [deactivate], the row has [isActive] false, and still [validateUser]
    with the user's email and password returns it and
    [JwtStrategy.validate] accepts a token issued for the user. *)
Theorem deactivated_user_still_authenticates (env : Env) (u : User.t)
    (stored plaintext : string) (db : Db) :
  wf_users db = true ->
  In u (users db) ->
  User.password u = Some stored ->
  compare plaintext stored = true ->
  exists row db',
    deactivate env (User.id u) db = (Ok (withoutPassword row), db')
    /\ User.isActive row = Some false
    /\ AuthService.validateUser (User.email u) plaintext db'
       = (Ok (Some row), db')
    /\ JwtStrategy.validate (AuthService.payload_of u) db' = (Ok row, db').
Proof.
  intros W Hu Pw C.
  exists (apply_set (set_active env false) u). eexists.
  split; [now apply set_active_run|]. split; [reflexivity|]. split.
  - rewrite validateUser_run. unfold validateCredentials_spec. simpl users.
    rewrite (updated_row_by_email (set_active env false) db u eq_refl W Hu).
    simpl. rewrite Pw. now rewrite C.
  - rewrite validate_run. simpl users.
    change (sub (AuthService.payload_of u)) with (User.id u).
    now rewrite (updated_row_by_id (set_active env false) db u W Hu).
Qed.

Lemma set_active_update env flag id db :
  update_users (set_active env flag) (eq_id id) db
  = if users_constraints (users db)
    then (Ok (map (apply_set (set_active env flag))
                (filter (eq_id id) (users db))),
          with_users db
            (update_rows (set_active env flag) (eq_id id) (users db))
            (users_id_seq db))
    else (Throw (QueryError "duplicate key value violates unique constraint"),
          db).
Proof.
  unfold update_users. unfold users_constraints at 1.
  rewrite update_rows_ids, update_rows_emails, update_rows_googleIds
    by reflexivity.
  reflexivity.
Qed.

(** X10.  [activate] after [deactivate] is [activate]: once a user is
    reactivated, the response and the store are what reactivating alone
    would have given, whether or not the id exists. *)
Theorem activate_undoes_deactivate (env env' : Env) (id : Z) (db : Db) :
  activate env' id (snd (deactivate env id db)) = activate env' id db.
Proof.
  unfold activate, deactivate, bind. rewrite !set_active_update.
  destruct (users_constraints (users db)) eqn:C.
  - rewrite first_or_not_found_store.
    cbn [users users_id_seq with_users].
    unfold users_constraints.
    rewrite update_rows_ids, update_rows_emails, update_rows_googleIds
      by reflexivity.
    fold (users_constraints (users db)). rewrite C.
    rewrite filter_id_update_rows.
    assert (update_rows (set_active env' true) (eq_id id)
              (update_rows (set_active env false) (eq_id id) (users db))
            = update_rows (set_active env' true) (eq_id id) (users db)) as Rows.
    { unfold update_rows. rewrite map_map. apply map_ext. intros u.
      destruct (eq_id id u) eqn:E; [|now rewrite E].
      change (eq_id id (apply_set (set_active env false) u)) with (eq_id id u).
      now rewrite E. }
    assert (map (apply_set (set_active env' true))
              (update_rows (set_active env false) (eq_id id)
                 (filter (eq_id id) (users db)))
            = map (apply_set (set_active env' true))
                (filter (eq_id id) (users db))) as Returned.
    { unfold update_rows. rewrite map_map. apply map_ext. intros u.
      now destruct (eq_id id u). }
    rewrite Rows, Returned.
    destruct (filter (eq_id id) (users db)); reflexivity.
  - cbn [snd]. now rewrite C.
Qed.

End UsersAftermath.

Section UsersWrites.

Import UsersService.

Lemma with_users_same (db : Db) :
  with_users db (users db) (users_id_seq db) = db.
Proof. now destruct db. Qed.

Lemma filter_negb_none {A} (p : A -> bool) (l : list A) :
  (forall v, In v l -> p v = false) -> filter (fun v => negb (p v)) l = l.
Proof.
  induction l as [|a t IH]; intros Off; [reflexivity|].
  simpl. rewrite (Off a (or_introl eq_refl)). simpl. f_equal.
  apply IH. intros v Hv. apply Off. now right.
Qed.


(** X11.  For an id that is a value of the [integer] column: [remove] of
    a stored user returns, and leaves the store without that row and with
    every other row, so that afterwards [findOne] and a second [remove]
    of the id throw NotFound and [JwtStrategy.validate] refuses a payload
    for the id; [remove] of an id that no row has throws NotFound and
    leaves the store as it was.  For an id that is not such a value the
    server refuses the statement: [remove] fails with the query error
    and leaves the store as it was. *)
Theorem users_remove_contract (id : Z) (db : Db) :
  wf_users db = true ->
  (int4 id = true ->
   (forall u,
       In u (users db) -> User.id u = id ->
       exists db',
         remove id db = (Ok tt, db')
         /\ ~ In u (users db')
         /\ (forall v, In v (users db') <-> In v (users db) /\ User.id v <> id)
         /\ findOne id db' = (Throw (not_found id), db')
         /\ remove id db' = (Throw (not_found id), db')
         /\ forall payload,
              sub payload = id ->
              JwtStrategy.validate payload db'
              = (Throw (UnauthorizedException "Unauthorized"), db'))
   /\ ((forall v, In v (users db) -> User.id v <> id) ->
       remove id db = (Throw (not_found id), db)))
  /\ (int4 id = false -> remove id db = (Throw out_of_range, db)).
Proof.
  intros W. split; [intros In_range; split|].
  - intros u Hu Ku.
    set (rest := filter (fun v => negb (eq_id id v)) (users db)).
    assert (forall v, In v rest <-> In v (users db) /\ User.id v <> id) as Left.
    { intros v. unfold rest. rewrite filter_In, negb_true_iff.
      unfold eq_id. now rewrite Z.eqb_neq. }
    assert (filter (eq_id id) rest = []) as Gone.
    { apply filter_nil. intros v Hv. apply Left in Hv as [_ Hv].
      now apply Z.eqb_neq. }
    exists (with_users db rest (users_id_seq db)).
    split; [|split; [|split; [|split; [|split]]]].
    + unfold remove, bind, delete_users. rewrite In_range. fold rest.
      subst id. now rewrite (only_row_with_id db u W Hu).
    + simpl. intros Hin. apply Left in Hin as [_ Hin]. contradiction.
    + exact Left.
    + unfold findOne, bind, select_users.
      change (users (with_users db rest (users_id_seq db))) with rest.
      now rewrite Gone.
    + unfold remove, bind, delete_users. rewrite In_range.
      change (users (with_users db rest (users_id_seq db))) with rest.
      rewrite Gone. cbn [List.length Nat.eqb].
      rewrite filter_negb_none; [reflexivity|].
      now apply filter_nil_inv.
    + intros payload <-. rewrite validate_run.
      change (users (with_users db rest (users_id_seq db))) with rest.
      now rewrite Gone.
  - intros Missing.
    assert (forall v, In v (users db) -> eq_id id v = false) as Off.
    { intros v Hv. apply Z.eqb_neq. now apply Missing. }
    unfold remove, bind, delete_users. rewrite In_range.
    rewrite (filter_nil _ _ Off), (filter_negb_none _ _ Off). simpl.
    now rewrite with_users_same.
  - intros Outside. unfold remove, bind, delete_users. now rewrite Outside.
Qed.


(** X13.  A successful [update] edits the profile of one row and nothing
    else: the keys, passwords, external ids, active flags and creation
    times of all rows, every row with another id, the sequence and the
    [books] table are as before. *)
Theorem users_update_edits_profile_only (env : Env) (id : Z)
    (updateUserDto : UpdateUserDto) (db db' : Db) (r : PublicUser.t) :
  update env id updateUserDto db = (Ok r, db') ->
  PublicUser.id r = id
  /\ map User.id (users db') = map User.id (users db)
  /\ map User.password (users db') = map User.password (users db)
  /\ map User.googleId (users db') = map User.googleId (users db)
  /\ map User.isActive (users db') = map User.isActive (users db)
  /\ map User.createdAt (users db') = map User.createdAt (users db)
  /\ (forall v, In v (users db) -> User.id v <> id -> In v (users db'))
  /\ users_id_seq db' = users_id_seq db
  /\ books db' = books db.
Proof.
  unfold update, bind, update_users.
  match goal with
  | |- context [users_constraints (update_rows ?given _ (users db))] =>
      set (s := given)
  end.
  destruct (users_constraints (update_rows s (eq_id id) (users db)));
    [|discriminate].
  intros Run.
  destruct (filter (eq_id id) (users db)) as [|u t] eqn:F; [discriminate|].
  simpl in Run. injection Run as <- <-.
  assert (In u (filter (eq_id id) (users db))) as Hu by (rewrite F; now left).
  apply filter_In in Hu as [_ Ku]. apply eq_id_true in Ku.
  simpl. split; [exact Ku|].
  repeat split; try (now apply update_rows_keeps).
  intros v Hv Other. unfold update_rows. apply in_map_iff. exists v.
  split; [|exact Hv].
  apply Z.eqb_neq in Other. unfold eq_id. now rewrite Other.
Qed.

End UsersWrites.

(** * Further properties of the catalogue *)

Section CatalogueLookups.

Import BooksService.

Lemma books_constraints_iff (rows : list Book.t) :
  books_constraints rows = true <->
  NoDup (map Book.id rows) /\ NoDup (map Book.isbn rows).
Proof.
  unfold books_constraints.
  now rewrite andb_true_iff, distinctZ_NoDup, distinct_NoDup.
Qed.

Lemma wf_books_keys db :
  wf_books db = true ->
  NoDup (map Book.id (books db)) /\ NoDup (map Book.isbn (books db)).
Proof.
  intros W. apply wf_books_iff in W as [C _].
  now apply books_constraints_iff.
Qed.

Lemma wf_books_key_in_range db b :
  wf_books db = true -> In b (books db) -> int4 (Book.id b) = true.
Proof. intros W. apply wf_books_iff in W as [_ R]. apply R. Qed.

Lemma eq_book_id_true k b : eq_book_id k b = true <-> Book.id b = k.
Proof. apply Z.eqb_eq. Qed.

Lemma eq_isbn_true i b : eq_isbn i b = true <-> Book.isbn b = i.
Proof. apply String.eqb_eq. Qed.

Lemma only_book_with_id db b :
  wf_books db = true -> In b (books db) ->
  filter (eq_book_id (Book.id b)) (books db) = [b].
Proof.
  intros W Hb. apply wf_books_keys in W as [Nid _].
  apply (filter_unique_total Book.id); auto.
  - now apply eq_book_id_true.
  - intros v _ Pv. now apply eq_book_id_true in Pv.
Qed.

Lemma only_book_with_isbn db b :
  wf_books db = true -> In b (books db) ->
  filter (eq_isbn (Book.isbn b)) (books db) = [b].
Proof.
  intros W Hb. apply wf_books_keys in W as [_ Nisbn].
  apply (filter_unique_total Book.isbn); auto.
  - now apply eq_isbn_true.
  - intros v _ Pv. now apply eq_isbn_true in Pv.
Qed.

(** X14.  On a catalogue the database can be in, every stored
    book is what [findOne] returns for its id and what [findByIsbn]
    returns for its ISBN; an ISBN that no book has makes [findByIsbn]
    throw NotFound.  Neither writes. *)
Theorem stored_book_is_found (db : Db) :
  wf_books db = true ->
  (forall b, In b (books db) ->
     findOne (Book.id b) db = (Ok b, db)
     /\ findByIsbn (Book.isbn b) db = (Ok b, db))
  /\ (forall isbn,
        (forall b, In b (books db) -> Book.isbn b <> isbn) ->
        findByIsbn isbn db
        = (Throw (NotFoundException
                    (String.append "Book with ISBN "
                       (String.append isbn " not found"))), db)).
Proof.
  intros W. split.
  - intros b Hb. split.
    + unfold findOne, bind, select_books_where.
      change (bound_id (eq_book_id (Book.id b))) with (Book.id b).
      rewrite (wf_books_key_in_range db b W Hb).
      now rewrite (only_book_with_id db b W Hb).
    + unfold findByIsbn, bind, select_books.
      now rewrite (only_book_with_isbn db b W Hb).
  - intros isbn Missing. unfold findByIsbn, bind, select_books.
    rewrite filter_nil; [reflexivity|].
    intros b Hb. destruct (eq_isbn isbn b) eqn:E; [|reflexivity].
    apply eq_isbn_true in E. now apply Missing in Hb.
Qed.





(** X16.  For a query without percent sign, underscore and backslash,
    when the query and the authors of the catalogue are ASCII text,
    [findByAuthor] returns exactly the books whose author contains the
    query, letter case apart. *)
Theorem findByAuthor_plain_query (author : string) (db : Db) :
  plain author = true ->
  ascii_text author = true ->
  forallb (fun b => ascii_text (Book.author b)) (books db) = true ->
  findByAuthor author db
  = (Ok (filter (fun b => occurs_in author (Book.author b)) (books db)), db).
Proof.
  intros Plain _ _. unfold findByAuthor.
  rewrite (contains_pattern_plain author Plain).
  unfold select_books. f_equal. f_equal. apply filter_ext. intros b.
  unfold author_where, ilike, holds, occurs_in.
  rewrite like_match_contains.
  now destruct (occurs_ci _ _).
Qed.

Lemma like_tokens_percents (query : list ascii) :
  forallb (fun c => Ascii.eqb c "%") query = true ->
  like_tokens query = Some (map (fun _ => AnyString) query).
Proof.
  induction query as [|c q IH]; [reflexivity|].
  simpl. intros H. apply andb_true_iff in H as [Hc Hq].
  now rewrite Hc, (IH Hq).
Qed.

Lemma like_match_wildcards {A} (l : list A) (text : list ascii) :
  like_match (AnyString :: map (fun _ => AnyString) l) text = true.
Proof.
  revert text. induction l as [|a t IH]; intros text.
  - apply like_match_rest.
  - rewrite like_match_any. cbn [map]. now rewrite IH.
Qed.

(** X17.  A query that is empty or made of percent signs only matches
    everything: [search] returns the whole catalogue, as [findAll]
    does. *)
Theorem search_wildcard_query_returns_all (query : string) (db : Db) :
  only_percent query = true ->
  search query db = (Ok (books db), db)
  /\ search query db = findAll db.
Proof.
  intros Only.
  assert (search query db = (Ok (books db), db)) as Run.
  { unfold search, contains_pattern.
    rewrite list_ascii_of_append, list_ascii_of_append.
    change (list_ascii_of_string "%") with ["%"%char].
    rewrite like_tokens_percents.
    - unfold select_books. f_equal. f_equal.
      rewrite <- (filter_all (books db)) at 2.
      apply filter_ext. intros b.
      unfold search_where, ilike.
      change (map (fun _ : ascii => AnyString)
                (["%"%char] ++ list_ascii_of_string query ++ ["%"%char]))
        with (AnyString
              :: map (fun _ : ascii => AnyString)
                   (list_ascii_of_string query ++ ["%"%char])).
      rewrite !like_match_wildcards. reflexivity.
    - unfold only_percent in Only.
      rewrite !forallb_app, Only. reflexivity. }
  split; [exact Run|]. rewrite Run. unfold findAll, select_books.
  now rewrite filter_all.
Qed.

End CatalogueLookups.

Section CatalogueWrites.

Import BooksService.

Lemma update_books_keeps_keys s (p : Book.t -> bool) rows :
  bset_isbn s = None ->
  books_constraints (map (fun b => if p b then apply_bset s b else b) rows)
  = books_constraints rows.
Proof.
  intros Si. unfold books_constraints. rewrite !map_map.
  rewrite (map_ext
             (fun b : Book.t => Book.id (if p b then apply_bset s b else b))
             Book.id) by (intros b; now destruct (p b)).
  rewrite (map_ext
             (fun b : Book.t => Book.isbn (if p b then apply_bset s b else b))
             Book.isbn); [reflexivity|].
  intros b. destruct (p b); [|reflexivity]. simpl. now rewrite Si.
Qed.

Lemma filter_id_update_books s (p : Book.t -> bool) k rows :
  filter (eq_book_id k) (map (fun b => if p b then apply_bset s b else b) rows)
  = map (fun b => if p b then apply_bset s b else b) (filter (eq_book_id k) rows).
Proof.
  induction rows as [|a t IH]; [reflexivity|].
  cbn [map filter].
  replace (eq_book_id k (if p a then apply_bset s a else a))
    with (eq_book_id k a) by now destruct (p a).
  destruct (eq_book_id k a); cbn [map]; now rewrite IH.
Qed.

Lemma In_other_book s k rows c :
  In c rows -> Book.id c <> k ->
  In c (map (fun b => if eq_book_id k b then apply_bset s b else b) rows).
Proof.
  intros Hc Other. apply in_map_iff. exists c. split; [|exact Hc].
  apply Z.eqb_neq in Other. unfold on_key, eq_book_id. simpl.
  now rewrite Other.
Qed.

Lemma update_books_keeps_ranges s (p : Book.t -> bool) rows :
  forallb (fun b => int4 (Book.id b))
    (map (fun b => if p b then apply_bset s b else b) rows)
  = forallb (fun b => int4 (Book.id b)) rows.
Proof.
  induction rows as [|a t IH]; [reflexivity|].
  cbn [map forallb]. rewrite IH. now destruct (p a).
Qed.

(** What an update by id does on a catalogue that accepts it. *)
Lemma update_books_accepted s db b :
  wf_books db = true -> In b (books db) ->
  books_constraints
    (map (fun c => if eq_book_id (Book.id b) c then apply_bset s c else c)
       (books db)) = true ->
  stock_in_range s = true ->
  let db' :=
    with_books db
      (map (fun c => if eq_book_id (Book.id b) c then apply_bset s c else c)
         (books db)) in
  (rows <- update_books s (eq_book_id (Book.id b)) ;;
   first_or_not_found (Book.id b) rows) db
  = (Ok (apply_bset s b), db')
  /\ wf_books db' = true
  /\ findOne (Book.id b) db' = (Ok (apply_bset s b), db')
  /\ (forall c, In c (books db) -> Book.id c <> Book.id b -> In c (books db'))
  /\ users db' = users db.
Proof.
  intros W Hb C Stock db'.
  pose proof (wf_books_key_in_range db b W Hb) as In_range.
  split; [|split; [|split; [|split]]].
  - unfold bind, update_books. rewrite C.
    change (bound_id (eq_book_id (Book.id b))) with (Book.id b).
    rewrite In_range, Stock. cbn [andb].
    now rewrite (only_book_with_id db b W Hb).
  - apply wf_books_iff in W as [_ R]. unfold wf_books. subst db'.
    cbn [books with_books]. rewrite C, update_books_keeps_ranges.
    now apply forallb_forall.
  - unfold findOne, bind, select_books_where. subst db'.
    change (bound_id (eq_book_id (Book.id b))) with (Book.id b).
    rewrite In_range. cbn [books with_books].
    rewrite filter_id_update_books, (only_book_with_id db b W Hb).
    simpl. unfold on_key. simpl. now rewrite Z.eqb_refl.
  - intros c Hc Other. now apply In_other_book.
  - reflexivity.
Qed.

(** X18.  [updateStock] on a stored book, with a quantity that is a value
    of the [integer] column, negative ones included, sets its stock to
    that quantity and its update time to now; the other columns of the
    book, the other books and the users are as before, and [findOne]
    then returns the book with the new stock.  A quantity that is not a
    value of the column is refused by the server: [updateStock] fails
    with the query error and nothing is written. *)
Theorem updateStock_sets_stock (env : Env) (b : Book.t) (quantity : Z)
    (db : Db) :
  wf_books db = true ->
  In b (books db) ->
  let b' :=
    {| Book.id := Book.id b; Book.title := Book.title b;
       Book.author := Book.author b; Book.isbn := Book.isbn b;
       Book.description := Book.description b; Book.price := Book.price b;
       Book.stock := Some quantity;
       Book.category := Book.category b;
       Book.publishedDate := Book.publishedDate b;
       Book.coverImage := Book.coverImage b;
       Book.createdAt := Book.createdAt b;
       Book.updatedAt := Some (now env) |} in
  (int4 quantity = true ->
   exists db',
     updateStock env (Book.id b) quantity db = (Ok b', db')
     /\ wf_books db' = true
     /\ findOne (Book.id b) db' = (Ok b', db')
     /\ (forall c, In c (books db) -> Book.id c <> Book.id b -> In c (books db'))
     /\ users db' = users db)
  /\ (int4 quantity = false ->
      updateStock env (Book.id b) quantity db = (Throw out_of_range, db)).
Proof.
  intros W Hb b'. unfold updateStock.
  match goal with
  | |- context [update_books ?given _] => set (s := given)
  end.
  assert (books_constraints
            (map (fun c => if eq_book_id (Book.id b) c then apply_bset s c else c)
               (books db)) = true) as C.
  { rewrite (update_books_keeps_keys s _ _ eq_refl).
    now apply wf_books_iff in W as [C _]. }
  split.
  - intros In_range.
    destruct (update_books_accepted s db b W Hb C In_range) as [Run Rest].
    eexists. split; [exact Run | exact Rest].
  - intros Outside. unfold bind, update_books. rewrite C.
    replace (stock_in_range s) with false by (symmetry; exact Outside).
    now rewrite andb_false_r.
Qed.



(** X21.  [remove] of a stored book returns, and leaves the catalogue
    without that book and with every other book: afterwards [findOne] and
    a second [remove] of the id throw NotFound.  The users are as
    before. *)
Theorem books_remove_contract (b : Book.t) (db : Db) :
  wf_books db = true ->
  In b (books db) ->
  exists db',
    remove (Book.id b) db = (Ok tt, db')
    /\ (forall c, In c (books db') <-> In c (books db) /\ Book.id c <> Book.id b)
    /\ wf_books db' = true
    /\ findOne (Book.id b) db' = (Throw (not_found (Book.id b)), db')
    /\ remove (Book.id b) db' = (Throw (not_found (Book.id b)), db')
    /\ users db' = users db.
Proof.
  intros W Hb.
  set (rest := filter (fun c => negb (eq_book_id (Book.id b) c)) (books db)).
  assert (forall c, In c rest <-> In c (books db) /\ Book.id c <> Book.id b)
    as Left.
  { intros c. unfold rest. rewrite filter_In, negb_true_iff.
    unfold on_key, eq_book_id. simpl. now rewrite Z.eqb_neq. }
  assert (filter (eq_book_id (Book.id b)) rest = []) as Gone.
  { apply filter_nil. intros c Hc. apply Left in Hc as [_ Hc].
    now apply Z.eqb_neq. }
  pose proof (wf_books_key_in_range db b W Hb) as In_range.
  exists (with_books db rest).
  split; [|split; [|split; [|split; [|split]]]].
  - unfold remove, bind, delete_books.
    change (bound_id (eq_book_id (Book.id b))) with (Book.id b).
    rewrite In_range. fold rest.
    now rewrite (only_book_with_id db b W Hb).
  - exact Left.
  - apply wf_books_iff. cbn [books with_books]. split.
    + apply wf_books_keys in W as [Nid Nisbn].
      apply books_constraints_iff. split; now apply NoDup_map_filter.
    + intros c Hc. apply Left in Hc as [Hc _].
      now apply (wf_books_key_in_range db c W).
  - unfold findOne, bind, select_books_where.
    change (bound_id (eq_book_id (Book.id b))) with (Book.id b).
    rewrite In_range.
    change (books (with_books db rest)) with rest. now rewrite Gone.
  - unfold remove, bind, delete_books.
    change (bound_id (eq_book_id (Book.id b))) with (Book.id b).
    rewrite In_range.
    change (books (with_books db rest)) with rest.
    rewrite Gone. cbn [List.length Nat.eqb].
    rewrite filter_negb_none; [reflexivity|].
    now apply filter_nil_inv.
  - reflexivity.
Qed.

End CatalogueWrites.

Section CatalogueGrowth.

Import BooksService.

Lemma wf_catalogue_iff (cat : Catalogue) :
  wf_catalogue cat = true <->
  wf_books (store cat) = true
  /\ forall b, In b (books (store cat)) -> Book.id b < books_id_seq cat.
Proof.
  unfold wf_catalogue. rewrite andb_true_iff, forallb_forall.
  split; intros [C H]; (split; [exact C|]); intros b Hb; specialize (H b Hb).
  - now apply Z.ltb_lt.
  - now apply Z.ltb_lt.
Qed.

Lemma insert_book_fresh t v cat :
  wf_catalogue cat = true ->
  int4 (books_id_seq cat) = true ->
  new_stock_in_range v = true ->
  (forall b, In b (books (store cat)) -> Book.isbn b <> nb_isbn v) ->
  let row := new_book t (books_id_seq cat) v in
  let cat' :=
    {| store := with_books (store cat) (books (store cat) ++ [row]);
       books_id_seq := books_id_seq cat + 1 |} in
  insert_book t v cat = (Ok [row], cat') /\ wf_catalogue cat' = true.
Proof.
  intros W Next Stock Fresh row cat'.
  pose proof W as W'. apply wf_catalogue_iff in W' as [Wb Hseq].
  pose proof (wf_books_keys _ Wb) as [Nid Nisbn].
  assert (books_constraints (books (store cat) ++ [row]) = true) as C.
  { apply books_constraints_iff. rewrite !map_app. simpl. split.
    - apply NoDup_app; [assumption | repeat constructor; intros [] |].
      intros a Ha [<-|[]]. apply in_map_iff in Ha as [b [E Hb]].
      specialize (Hseq b Hb). lia.
    - apply NoDup_app; [assumption | repeat constructor; intros [] |].
      intros a Ha [<-|[]]. apply in_map_iff in Ha as [b [E Hb]].
      now apply (Fresh b Hb). }
  split.
  - unfold insert_book. fold row. now rewrite C, Stock, Next.
  - apply wf_catalogue_iff. subst cat'. cbn [store books_id_seq books with_books].
    split.
    + apply wf_books_iff. cbn [books with_books]. split; [exact C|].
      intros b Hb. apply in_app_iff in Hb as [Hb|[<-|[]]].
      * now apply (wf_books_key_in_range _ b Wb).
      * exact Next.
    + intros b Hb. apply in_app_iff in Hb as [Hb|[<-|[]]].
      * specialize (Hseq b Hb). lia.
      * simpl. lia.
Qed.

(** X22.  On a catalogue the database can be in, whose sequence has a
    value left, [create] with a DTO that the columns can hold and an ISBN
    that no book has returns the inserted book: its id is the next of the
    sequence, its title, author, ISBN, description, category, publication
    date and cover image are those of the DTO, its stock the one given or
    else 0, its two timestamps now (the text in which the store returns
    the price is not part of this statement).  The book is appended to
    the catalogue, which stays well formed with the sequence one further,
    and [findOne] by its id and [findByIsbn] by its ISBN return it. *)
Theorem create_then_find (env : Env) (createBookDto : CreateBookDto)
    (cat : Catalogue) :
  wf_catalogue cat = true ->
  int4 (books_id_seq cat) = true ->
  fits_columns createBookDto = true ->
  (forall b, In b (books (store cat)) ->
     Book.isbn b <> cr_isbn createBookDto) ->
  exists b cat',
    create env createBookDto cat = (Ok (Some b), cat')
    /\ Book.id b = books_id_seq cat
    /\ Book.title b = cr_title createBookDto
    /\ Book.author b = cr_author createBookDto
    /\ Book.isbn b = cr_isbn createBookDto
    /\ Book.description b = cr_description createBookDto
    /\ Book.stock b
       = match cr_stock createBookDto with
         | Some quantity => Some quantity
         | None => Some 0
         end
    /\ Book.category b = cr_category createBookDto
    /\ Book.publishedDate b = cr_publishedDate createBookDto
    /\ Book.coverImage b = cr_coverImage createBookDto
    /\ Book.createdAt b = Some (now env)
    /\ Book.updatedAt b = Some (now env)
    /\ books (store cat') = books (store cat) ++ [b]
    /\ books_id_seq cat' = books_id_seq cat + 1
    /\ users (store cat') = users (store cat)
    /\ wf_catalogue cat' = true
    /\ findOne (Book.id b) (store cat') = (Ok b, store cat')
    /\ findByIsbn (cr_isbn createBookDto) (store cat') = (Ok b, store cat').
Proof.
  intros W Next Fits Fresh. unfold create.
  assert (optional int4 (cr_stock createBookDto) = true) as Stock.
  { unfold fits_columns in Fits. now apply andb_true_iff in Fits as [_ Fits]. }
  match goal with
  | |- context [insert_book ?t ?v cat] =>
      destruct (insert_book_fresh t v cat W Next Stock Fresh) as [Run W']
  end.
  cbv zeta in Run, W'. rewrite Run.
  set (b := new_book _ _ _) in *.
  set (cat' := {| store := _; books_id_seq := _ |}) in *.
  assert (wf_books (store cat') = true) as Wb.
  { now apply wf_catalogue_iff in W' as [Wb _]. }
  assert (In b (books (store cat'))) as Hb.
  { subst cat'. simpl. apply in_app_iff. right. now left. }
  destruct (stored_book_is_found (store cat') Wb) as [Found _].
  destruct (Found b Hb) as [ById ByIsbn].
  exists b, cat'.
  split; [reflexivity|]. split; [reflexivity|]. split; [reflexivity|].
  split; [reflexivity|]. split; [reflexivity|]. split; [reflexivity|].
  split; [subst b; simpl; now destruct (cr_stock createBookDto)|].
  split; [reflexivity|]. split; [reflexivity|]. split; [reflexivity|].
  split; [reflexivity|]. split; [reflexivity|]. split; [reflexivity|].
  split; [reflexivity|]. split; [reflexivity|]. split; [exact W'|].
  split; [exact ById | exact ByIsbn].
Qed.


End CatalogueGrowth.

(** * The further properties on the sample stores *)

Lemma usersService_keeps_store_well_formed_witness :
  wf_users sample_db = true
  /\ wf_users (snd (UsersService.remove 1 sample_db)) = true
  /\ wf_users (snd (UsersService.update sample_env 1 take_bobs_email
                      sample_db)) = true.
Proof.
  split; [reflexivity|].
  destruct (usersService_keeps_store_well_formed sample_env 1 take_bobs_email
              sample_db eq_refl) as [_ [_ [Updated [Removed _]]]].
  split; [exact Removed | exact Updated].
Defined.

(** Alice is deactivated and signs in all the same. *)
Lemma deactivated_user_still_authenticates_witness :
  wf_users sample_db = true
  /\ exists row db',
       UsersService.deactivate sample_env 1 sample_db
       = (Ok (withoutPassword row), db')
       /\ User.isActive row = Some false
       /\ @AuthService.validateUser marker_hasher "a@b.com" "secret1" db'
          = (Ok (Some row), db').
Proof.
  split; [reflexivity|].
  destruct (@deactivated_user_still_authenticates marker_hasher sample_env
              alice "$2a$secret1" "secret1" sample_db
              eq_refl (or_introl eq_refl) eq_refl eq_refl)
    as [row [db' [Run [Off [Valid _]]]]].
  exists row, db'. auto.
Defined.

(** Alice is removed; Bob stays, and Alice's token is refused.  The id
    2147483648 is refused by the server. *)
Lemma users_remove_contract_witness :
  wf_users sample_db = true
  /\ int4 1 = true
  /\ int4 2147483648 = false
  /\ (exists db',
        UsersService.remove 1 sample_db = (Ok tt, db')
        /\ In bob (users db')
        /\ JwtStrategy.validate (AuthService.payload_of alice) db'
           = (Throw (UnauthorizedException "Unauthorized"), db'))
  /\ UsersService.remove 2147483648 sample_db
     = (Throw (QueryError "value out of range for type integer"), sample_db).
Proof.
  split; [reflexivity|]. split; [reflexivity|]. split; [reflexivity|]. split.
  - destruct (users_remove_contract 1 sample_db eq_refl) as [In_range _].
    destruct (In_range eq_refl) as [Stored _].
    destruct (Stored alice (or_introl eq_refl) eq_refl)
      as [db' [Run [_ [Left [_ [_ Refused]]]]]].
    exists db'. split; [exact Run|]. split.
    + apply Left. split; [right; now left | discriminate].
    + now apply Refused.
  - destruct (users_remove_contract 2147483648 sample_db eq_refl)
      as [_ Outside].
    exact (Outside eq_refl).
Defined.


(** Alice becomes Alicia; the password columns are as before. *)
Lemma users_update_edits_profile_only_witness :
  exists r db',
    UsersService.update sample_env 1 rename_to_alicia sample_db = (Ok r, db')
    /\ PublicUser.firstName r = Some "Alicia"
    /\ map User.password (users db') = [Some "$2a$secret1"; None].
Proof.
  eexists. eexists. split; [reflexivity|]. split; [reflexivity|].
  destruct (users_update_edits_profile_only sample_env 1 rename_to_alicia
              sample_db _ _ eq_refl) as [_ [_ [Passwords _]]].
  exact Passwords.
Defined.

(** Dune is found by its id and by its ISBN. *)
Lemma stored_book_is_found_witness :
  wf_books sample_db = true
  /\ BooksService.findOne 1 sample_db = (Ok dune, sample_db)
  /\ BooksService.findByIsbn "9780441013593" sample_db = (Ok dune, sample_db).
Proof.
  split; [reflexivity|].
  destruct (stored_book_is_found sample_db eq_refl) as [Found _].
  apply (Found dune). now left.
Defined.

(** "HERB" finds Dune by its author. *)
Lemma findByAuthor_plain_query_witness :
  plain "HERB" = true
  /\ ascii_text "HERB" = true
  /\ forallb (fun b => ascii_text (Book.author b)) (books two_books_db) = true
  /\ BooksService.findByAuthor "HERB" two_books_db = (Ok [dune], two_books_db).
Proof.
  split; [reflexivity|]. split; [reflexivity|]. split; [reflexivity|].
  rewrite (findByAuthor_plain_query "HERB" two_books_db eq_refl eq_refl
             eq_refl).
  reflexivity.
Defined.

(** The empty query and "%%" return both books. *)
Lemma search_wildcard_query_returns_all_witness :
  only_percent "" = true
  /\ BooksService.search "" two_books_db = (Ok [dune; hyperion], two_books_db)
  /\ BooksService.search "%%" two_books_db = (Ok [dune; hyperion], two_books_db).
Proof.
  split; [reflexivity|]. split.
  - apply (search_wildcard_query_returns_all "" two_books_db). reflexivity.
  - apply (search_wildcard_query_returns_all "%%" two_books_db). reflexivity.
Defined.

(** The stock of Dune is set to -4.  A stock of 2147483648 is refused by
    the server. *)
Lemma updateStock_sets_stock_witness :
  wf_books sample_db = true
  /\ int4 (-4) = true
  /\ int4 2147483648 = false
  /\ (exists b' db',
        BooksService.updateStock sample_env 1 (-4) sample_db = (Ok b', db')
        /\ Book.stock b' = Some (-4)
        /\ BooksService.findOne 1 db' = (Ok b', db'))
  /\ BooksService.updateStock sample_env 1 2147483648 sample_db
     = (Throw (QueryError "value out of range for type integer"), sample_db).
Proof.
  split; [reflexivity|]. split; [reflexivity|]. split; [reflexivity|]. split.
  - destruct (updateStock_sets_stock sample_env dune (-4) sample_db eq_refl
                (or_introl eq_refl)) as [In_range _].
    destruct (In_range eq_refl) as [db' [Run [_ [Found _]]]].
    eexists. exists db'. split; [exact Run|]. split; [reflexivity | exact Found].
  - destruct (updateStock_sets_stock sample_env dune 2147483648 sample_db
                eq_refl (or_introl eq_refl)) as [_ Outside].
    exact (Outside eq_refl).
Defined.



(** Dune is removed; Hyperion stays. *)
Lemma books_remove_contract_witness :
  wf_books two_books_db = true
  /\ exists db',
       BooksService.remove 1 two_books_db = (Ok tt, db')
       /\ In hyperion (books db')
       /\ BooksService.findOne 1 db'
          = (Throw (NotFoundException "Book with ID 1 not found"), db').
Proof.
  split; [reflexivity|].
  destruct (books_remove_contract dune two_books_db eq_refl (or_introl eq_refl))
    as [db' [Run [Left [_ [Gone _]]]]].
  exists db'. split; [exact Run|]. split; [|exact Gone].
  apply Left. split; [right; now left | discriminate].
Defined.

(** Hyperion is created without a stock. *)
Lemma create_then_find_witness :
  wf_catalogue sample_catalogue = true
  /\ int4 (books_id_seq sample_catalogue) = true
  /\ fits_columns hyperion_dto = true
  /\ exists b cat',
       BooksService.create sample_env hyperion_dto sample_catalogue
       = (Ok (Some b), cat')
       /\ Book.id b = 2
       /\ Book.title b = "Hyperion"
       /\ Book.stock b = Some 0
       /\ books_id_seq cat' = 3
       /\ BooksService.findByIsbn "9780553283686" (store cat')
          = (Ok b, store cat').
Proof.
  split; [reflexivity|]. split; [reflexivity|]. split; [reflexivity|].
  assert (forall b, In b (books (store sample_catalogue)) ->
                    Book.isbn b <> cr_isbn hyperion_dto) as Fresh.
  { intros b [<-|[]]. discriminate. }
  destruct (create_then_find sample_env hyperion_dto sample_catalogue
              eq_refl eq_refl eq_refl Fresh)
    as (b & cat' & Run & Id & Title & _ & _ & _ & Stock & _ & _ & _ & _ & _
        & _ & Next & _ & _ & _ & Found).
  exists b, cat'. auto 10.
Defined.

